(** * Baseball player analytics pipeline: the fetch and load scripts

    A shallow embedding of [scripts/fetch_data.py] and
    [scripts/loading_RDS.py], and the properties of the validation-and-load
    stage checked against it.

    Conventions of the embedding.
    - A pandas [DataFrame] is an ordered list of named, typed columns.
    - The scalar types pandas relies on (float64 values, timestamps and the
      parsers behind [pd.to_numeric], [pd.to_datetime] and [astype]) are the
      fields of the class [Pandas]; nothing is assumed about them.
    - Python statements that print, raise, exit or touch the database are
      written in the monad [Py], whose state holds the printed messages, the
      contents of the target table and the SQLAlchemy engine.
    - Strings are sequences of one-byte characters; [len] and [lower] are
      the ASCII ones.
    - A label stands for the first column that carries it, which is what
      [df[c]] returns when the labels of the frame are distinct. *)

From Stdlib Require Import List String Ascii ZArith Bool Arith Lia DecimalString.
From Stdlib Require QArith.
Import ListNotations.
Local Open Scope string_scope.
Local Open Scope list_scope.


(** ** Scalars of the dataframe library *)

Class Pandas := {
  (** float64 values other than NaN *)
  float : Type;
  (** datetime64 values other than NaT *)
  Timestamp : Type;
  float_eq_dec : forall x y : float, {x = y} + {x <> y};
  timestamp_eq_dec : forall x y : Timestamp, {x = y} + {x <> y};
  (** int64 to float64 *)
  float_of_int : Z -> float;
  (** the safe cast of [astype(Int64)]: [None] when the float is not integral *)
  int_of_float : float -> option Z;
  (** the cast [astype(Int64)] applies to a string; [None] when it raises *)
  int_of_string : string -> option Z;
  (** the parser of [pd.to_numeric]: an integer, a float, or no number *)
  parse_number : string -> option (Z + float);
  (** the conversions of [pd.to_datetime]; [None] when the value is rejected *)
  datetime_of_string : string -> option Timestamp;
  datetime_of_int : Z -> option Timestamp;
  datetime_of_float : float -> option Timestamp;
  (** the int64 view of a timestamp *)
  timestamp_value : Timestamp -> Z;
  (** [str] of a float and of a timestamp *)
  str_of_float : float -> string;
  str_of_timestamp : Timestamp -> string
}.

(** ** ASCII helpers *)

(** [c.lower()] for one character. *)
Definition lower_ascii (c : ascii) : ascii :=
  let n := nat_of_ascii c in
  if (65 <=? n)%nat && (n <=? 90)%nat then ascii_of_nat (n + 32) else c.

(** [col.lower()] *)
Fixpoint lower (s : string) : string :=
  match s with
  | EmptyString => EmptyString
  | String c s' => String (lower_ascii c) (lower s')
  end.

(** [str(z)] for an integer. *)
Definition str_of_int (z : Z) : string := NilZero.string_of_int (Z.to_int z).

(** [x in xs] for strings. *)
Definition mem (x : string) (xs : list string) : bool :=
  existsb (String.eqb x) xs.

(** ** Exceptions, printed lines and results *)

(** The exceptions the scripts can meet. [SystemExit] is what [sys.exit]
    raises; it is not a subclass of [Exception]. *)
Inductive Exn :=
| SystemExit (code : Z)
| KeyError (key : string)
| NameError (name : string)
| ValueError
| TypeError
| ParserError
| ArgumentError
| OperationalError
| IntegrityError
| DataError.

(** [isinstance(e, Exception)] *)
Definition is_Exception (e : Exn) : bool :=
  match e with SystemExit _ => false | _ => true end.

(** [isinstance(e, IntegrityError)] *)
Definition is_IntegrityError (e : Exn) : bool :=
  match e with IntegrityError => true | _ => false end.

(** The lines [loading_RDS.py] prints, with the numbers they format. The
    tables printed as samples are not recorded. *)
Inductive Msg :=
| MNoCredentials
| MStarting
| MNoCsvFound
| MFoundFile
| MReadingCsv
| MReadRows (n : nat)
| MValidating
| MNullPkError (n : nat)
| MNullPkSample
| MNullPkExit
| MCheck1Passed
| MDuplicateError (n : nat)
| MDuplicateSample
| MDuplicateExit
| MCheck2Passed
| MDescriptionWarning (longest : option nat)
| MCheck3Passed (longest : option nat)
| MProcessingError (e : Exn)
| MConnecting
| MConnected
| MConnectError (e : Exn)
| MLoading
| MLoaded (n : nat)
| MIntegrityError
| MLoadError (e : Exn)
| MEngineClosed
| MFinished.

Inductive Result (A : Type) :=
| Ok (a : A)
| Raise (e : Exn).
Arguments Ok {A} a.
Arguments Raise {A} e.

Section Frames.

Context {P : Pandas}.

(** ** Cells, series and frames *)

(** One value of a column, as pandas shows it. *)
Inductive Cell :=
| CNull
| CInt (z : Z)
| CFloat (f : float)
| CStr (s : string)
| CTime (t : Timestamp).

Definition Cell_eq_dec (x y : Cell) : {x = y} + {x <> y}.
Proof.
  decide equality.
  - apply Z.eq_dec.
  - apply float_eq_dec.
  - apply string_dec.
  - apply timestamp_eq_dec.
Defined.

(** A typed column. [None] is the missing value of the dtype. *)
Inductive Series :=
| SInt64 (v : list Z)
| SFloat64 (v : list (option float))
| SObject (v : list (option string))
| SDatetime (v : list (option Timestamp))
| SInt64NA (v : list (option Z)).

Inductive DType := int64 | float64 | object | datetime64 | Int64.

Definition dtype (s : Series) : DType :=
  match s with
  | SInt64 _ => int64
  | SFloat64 _ => float64
  | SObject _ => object
  | SDatetime _ => datetime64
  | SInt64NA _ => Int64
  end.

Definition opt_cell {A} (f : A -> Cell) (o : option A) : Cell :=
  match o with Some a => f a | None => CNull end.

Definition cells (s : Series) : list Cell :=
  match s with
  | SInt64 v => map CInt v
  | SFloat64 v => map (opt_cell CFloat) v
  | SObject v => map (opt_cell CStr) v
  | SDatetime v => map (opt_cell CTime) v
  | SInt64NA v => map (opt_cell CInt) v
  end.

Definition series_len (s : Series) : nat := List.length (cells s).

(** The value at position [i]; a position past the end reads as missing. *)
Definition cell_at (s : Series) (i : nat) : Cell := nth i (cells s) CNull.

Definition DataFrame := list (string * Series).

Definition columns (df : DataFrame) : list string := map fst df.

(** [len(df)] *)
Definition len (df : DataFrame) : nat :=
  match df with
  | [] => 0
  | (_, s) :: _ => series_len s
  end.

(** [col in df.columns] *)
Definition has_col (df : DataFrame) (c : string) : bool := mem c (columns df).

(** The series [df[c]] when the column exists. *)
Fixpoint get_col (df : DataFrame) (c : string) : option Series :=
  match df with
  | [] => None
  | (c', s) :: df' => if String.eqb c' c then Some s else get_col df' c
  end.

(** [df[c] = s] for an existing column. *)
Fixpoint set_col (df : DataFrame) (c : string) (s : Series) : DataFrame :=
  match df with
  | [] => []
  | (c', s') :: df' =>
      if String.eqb c' c then (c', s) :: df' else (c', s') :: set_col df' c s
  end.

(** [df.columns = [col.lower() for col in df.columns]] *)
Definition lower_columns (df : DataFrame) : DataFrame :=
  map (fun p => (lower (fst p), snd p)) df.

(** [df[cs]] for a list of existing labels: every column carrying each label,
    in the order of the labels. *)
Definition select (df : DataFrame) (cs : list string) : DataFrame :=
  flat_map (fun c => filter (fun p => String.eqb (fst p) c) df) cs.

(** A row as a record: column name and value. *)
Definition Row := list (string * Cell).

Definition row_at (df : DataFrame) (i : nat) : Row :=
  map (fun p => (fst p, cell_at (snd p) i)) df.

(** [df.to_dict(orient='records')]: the rows in index order. *)
Definition rows_of (df : DataFrame) : list Row :=
  map (row_at df) (seq 0 (len df)).

Fixpoint field (r : Row) (c : string) : option Cell :=
  match r with
  | [] => None
  | (c', v) :: r' => if String.eqb c' c then Some v else field r' c
  end.

Definition is_null (c : Cell) : bool :=
  match c with CNull => true | _ => false end.

(** ** Column conversions *)

(** [str(v)] as [astype(str)] produces it, by dtype. *)
Definition astype_str (s : Series) : list string :=
  match s with
  | SInt64 v => map str_of_int v
  | SFloat64 v =>
      map (fun o => match o with Some f => str_of_float f | None => "nan" end) v
  | SObject v => map (fun o => match o with Some x => x | None => "nan" end) v
  | SDatetime v =>
      map (fun o => match o with Some t => str_of_timestamp t | None => "NaT" end) v
  | SInt64NA v =>
      map (fun o => match o with Some z => str_of_int z | None => "<NA>" end) v
  end.

(** [.max()] of a series of lengths: NaN ([None]) when it is empty. *)
Definition max_opt (l : list nat) : option nat :=
  match l with
  | [] => None
  | x :: l' => Some (fold_left Nat.max l' x)
  end.

(** [df['description'].astype(str).str.len().max()] on the series. *)
Definition max_str_len (s : Series) : option nat :=
  max_opt (map String.length (astype_str s)).


(** ** Python effects *)

(** The rows of the table [statcast_data]. *)
Definition Table := list Row.

(** A SQLAlchemy engine: the connections its pool holds open, and whether
    [dispose] has been called on it. *)
Record Engine := { pooled : nat; disposed : bool }.

(** What a run of the script acts on. *)
Record Process := {
  stdout : list Msg;
  db : Table;
  engine : option Engine
}.

Definition Py (A : Type) : Type := Process -> Result A * Process.

Definition ret {A} (a : A) : Py A := fun p => (Ok a, p).

Definition bind {A B} (m : Py A) (k : A -> Py B) : Py B :=
  fun p =>
    match m p with
    | (Ok a, p') => k a p'
    | (Raise e, p') => (Raise e, p')
    end.

Definition raise {A} (e : Exn) : Py A := fun p => (Raise e, p).

Notation "x <- m ;; k" := (bind m (fun x => k))
  (at level 61, m at next level, right associativity).
Notation "m ;; k" := (bind m (fun _ => k))
  (at level 61, right associativity).

(** [print(...)] *)
Definition print (m : Msg) : Py unit :=
  fun p => (Ok tt, {| stdout := stdout p ++ [m]; db := db p; engine := engine p |}).

(** [sys.exit(code)] *)
Definition sys_exit {A} (code : Z) : Py A := raise (SystemExit code).

(** A value a library call returns or raises. *)
Definition lift {A} (r : Result A) : Py A := fun p => (r, p).

(** The [except] clauses of a [try], in order: the first whose class matches
    handles the exception; one that no clause matches goes on. *)
Fixpoint handle {A} (clauses : list ((Exn -> bool) * (Exn -> Py A))) (e : Exn)
  : Py A :=
  match clauses with
  | [] => raise e
  | (matches, handler) :: clauses' =>
      if matches e then handler e else handle clauses' e
  end.

(** [try: body / except ...: ... / except ...: ...]. An exception raised by a
    handler is not caught by the clauses of the same [try]. *)
Definition try_except {A} (body : Py A)
    (clauses : list ((Exn -> bool) * (Exn -> Py A))) : Py A :=
  fun p =>
    match body p with
    | (Ok a, p') => (Ok a, p')
    | (Raise e, p') => handle clauses e p'
    end.

(** [try: body / finally: cleanup]. The cleanup runs on every way out of the
    body; an exception of the body goes on after it. *)
Definition try_finally {A} (body : Py A) (cleanup : Py unit) : Py A :=
  fun p =>
    match body p with
    | (r, p') =>
        match cleanup p' with
        | (Ok _, p'') => (r, p'')
        | (Raise e, p'') => (Raise e, p'')
        end
    end.

(** ** pandas calls that can raise *)

(** [df[c]]: the series of the column that carries the label, [KeyError]
    when the label is absent. When several columns carry the label pandas
    returns the frame of those columns; the first of them stands for it
    here. *)
Definition getitem (df : DataFrame) (c : string) : Result Series :=
  match get_col df c with
  | Some s => Ok s
  | None => Raise (KeyError c)
  end.

(** [df[cs]] for a list of labels: [KeyError] on the first absent one. A
    label stands for the first column that carries it. *)
Fixpoint getitems (df : DataFrame) (cs : list string) : Result (list Series) :=
  match cs with
  | [] => Ok []
  | c :: cs' =>
      match getitem df c with
      | Raise e => Raise e
      | Ok s =>
          match getitems df cs' with
          | Raise e => Raise e
          | Ok ss => Ok (s :: ss)
          end
      end
  end.

(** What [pd.to_datetime] makes of one value: a missing value becomes NaT,
    a value it cannot convert gives [None]. *)
Definition datetime_of_cell (c : Cell) : option (option Timestamp) :=
  match c with
  | CNull => Some None
  | CInt z => option_map Some (datetime_of_int z)
  | CFloat f => option_map Some (datetime_of_float f)
  | CStr s => option_map Some (datetime_of_string s)
  | CTime t => Some (Some t)
  end.

Fixpoint all_some {A} (l : list (option A)) : option (list A) :=
  match l with
  | [] => Some []
  | None :: _ => None
  | Some a :: l' => option_map (cons a) (all_some l')
  end.

(** [pd.to_datetime(s)], with the default [errors='raise']. *)
Definition to_datetime (s : Series) : Result Series :=
  match all_some (map datetime_of_cell (cells s)) with
  | Some v => Ok (SDatetime v)
  | None => Raise ValueError
  end.

Inductive ErrorsPolicy := errors_raise | errors_coerce.

(** [maybe_convert_numeric] on one string field of an object column. *)
Definition numeric_of_field (e : ErrorsPolicy) (o : option string)
  : option (option (Z + float)) :=
  match o with
  | None => Some None
  | Some x =>
      match parse_number x with
      | Some n => Some (Some n)
      | None => match e with errors_coerce => Some None | errors_raise => None end
      end
  end.

Fixpoint all_ints (l : list (option (Z + float))) : option (list Z) :=
  match l with
  | [] => Some []
  | Some (inl z) :: l' => option_map (cons z) (all_ints l')
  | _ :: _ => None
  end.

Definition float_of_number (n : Z + float) : float :=
  match n with inl z => float_of_int z | inr f => f end.

(** [pd.to_numeric(s, errors=e)]. A numeric column comes back as it is and a
    datetime column as its int64 view. An object column is parsed field by
    field; the result is int64 when every field is an integer and float64
    otherwise ("the default return dtype is float64 or int64 depending on
    the data supplied"). *)
Definition to_numeric (e : ErrorsPolicy) (s : Series) : Result Series :=
  match s with
  | SInt64 _ | SFloat64 _ | SInt64NA _ => Ok s
  | SDatetime v =>
      Ok (SInt64 (map (fun o => match o with
                                | Some t => timestamp_value t
                                | None => (- 2 ^ 63)%Z
                                end) v))
  | SObject v =>
      match all_some (map (numeric_of_field e) v) with
      | None => Raise ValueError
      | Some ns =>
          match all_ints ns with
          | Some zs => Ok (SInt64 zs)
          | None => Ok (SFloat64 (map (option_map float_of_number) ns))
          end
      end
  end.

(** [s.astype(pd.Int64Dtype())] *)
Definition astype_Int64 (s : Series) : Result Series :=
  match s with
  | SInt64 v => Ok (SInt64NA (map Some v))
  | SInt64NA _ => Ok s
  | SFloat64 v =>
      match all_some (map (fun o => match o with
                                    | None => Some None
                                    | Some f => option_map Some (int_of_float f)
                                    end) v) with
      | Some zs => Ok (SInt64NA zs)
      | None => Raise TypeError
      end
  | SObject v =>
      match all_some (map (fun o => match o with
                                    | None => Some None
                                    | Some x => option_map Some (int_of_string x)
                                    end) v) with
      | Some zs => Ok (SInt64NA zs)
      | None => Raise ValueError
      end
  | SDatetime _ => Raise TypeError
  end.


(** * [loading_RDS.py] *)

(** ** Step 2: reading and preparing the frame (lines 74 to 112) *)

Definition numeric_cols : list string :=
  ["release_speed"; "release_pos_x"; "release_pos_z"; "pfx_x"; "pfx_z";
   "plate_x"; "plate_z"; "effective_speed"; "release_spin_rate";
   "release_extension"; "spin_axis"; "hit_distance_sc"; "launch_speed";
   "launch_angle"; "estimated_ba_using_speedangle"; "woba_value";
   "estimated_woba_using_speedangle"; "hc_x"; "hc_y"; "sz_top"; "sz_bot"].

Definition int_cols : list string :=
  ["balls"; "strikes"; "zone"; "outs_when_up"; "inning";
   "at_bat_number"; "pitch_number"; "game_pk"; "batter"; "pitcher";
   "on_1b"; "on_2b"; "on_3b"; "hit_location"; "woba_denom";
   "babip_value"; "iso_value"; "launch_speed_angle";
   "fielder_2"; "fielder_3"; "fielder_4"; "fielder_5";
   "fielder_6"; "fielder_7"; "fielder_8"; "fielder_9";
   "home_score"; "away_score"; "bat_score"; "fld_score";
   "post_away_score"; "post_home_score"; "post_bat_score"; "post_fld_score"].

(** [if col in df.columns: df[col] = f(df[col])] *)
Definition convert_col (f : Series -> Result Series) (col : string)
    (df : DataFrame) : Result DataFrame :=
  if has_col df col then
    match getitem df col with
    | Raise e => Raise e
    | Ok s =>
        match f s with
        | Raise e => Raise e
        | Ok s' => Ok (set_col df col s')
        end
    end
  else Ok df.

(** [for col in cols: if col in df.columns: df[col] = f(df[col])] *)
Fixpoint convert_cols (f : Series -> Result Series) (cols : list string)
    (df : DataFrame) : Result DataFrame :=
  match cols with
  | [] => Ok df
  | col :: cols' =>
      match convert_col f col df with
      | Raise e => Raise e
      | Ok df' => convert_cols f cols' df'
      end
  end.

(** Lines 82 to 86: lower-case the names, parse [game_date]. *)
Definition prepare_dates (df : DataFrame) : Result DataFrame :=
  convert_col to_datetime "game_date" (lower_columns df).

(** Lines 90 to 98: the numeric columns. *)
Definition coerce_numeric (df : DataFrame) : Result DataFrame :=
  convert_cols (to_numeric errors_coerce) numeric_cols df.

(** Lines 101 to 112: the nullable-integer columns. *)
Definition cast_integers (df : DataFrame) : Result DataFrame :=
  convert_cols astype_Int64 int_cols df.

(** Lines 82 to 112. *)
Definition normalize (df : DataFrame) : Result DataFrame :=
  match prepare_dates df with
  | Raise e => Raise e
  | Ok df1 =>
      match coerce_numeric df1 with
      | Raise e => Raise e
      | Ok df2 => cast_integers df2
      end
  end.

(** ** Step 2, continued: the pre-load checks (lines 114 to 158) *)

Definition pk_cols : list string := ["game_pk"; "at_bat_number"; "pitch_number"].

(** [.sum()] of a boolean series. *)
Definition sum_bool (l : list bool) : nat := List.length (filter (fun b => b) l).

(** [frame.isnull().any(axis=1)] for a frame of [n] rows with the columns [ss]. *)
Definition isnull_any (ss : list Series) (n : nat) : list bool :=
  map (fun i => existsb (fun s => is_null (cell_at s i)) ss) (seq 0 n).

(** The key of row [i]: its values in the columns [ss]. *)
Definition key_at (ss : list Series) (i : nat) : list Cell :=
  map (fun s => cell_at s i) ss.

Definition key_eq_dec : forall k k' : list Cell, {k = k'} + {k <> k'} :=
  list_eq_dec Cell_eq_dec.

(** [df.duplicated(subset=..., keep=False)]: a row is marked when its key
    occurs more than once in the frame. *)
Definition duplicated (ss : list Series) (n : nat) : list bool :=
  let keys := map (key_at ss) (seq 0 n) in
  map (fun k => (1 <? count_occ key_eq_dec keys k)%nat) keys.

Definition db_desc_limit : nat := 100.

(** [max_desc_len > db_desc_limit]; a comparison with NaN is false. *)
Definition exceeds (m : option nat) (limit : nat) : bool :=
  match m with
  | Some n => (limit <? n)%nat
  | None => false
  end.

(** Validation check 1 (lines 116 to 129). *)
Definition check_null_pk (df : DataFrame) : Py unit :=
  pk <- lift (getitems df pk_cols) ;;
  let null_pk_rows := isnull_any pk (len df) in
  let num_null_pk_rows := sum_bool null_pk_rows in
  if (0 <? num_null_pk_rows)%nat then
    print (MNullPkError num_null_pk_rows) ;;
    print MNullPkSample ;;
    print MNullPkExit ;;
    sys_exit 1
  else
    print MCheck1Passed.

(** Validation check 2 (lines 131 to 147). *)
Definition check_duplicate_pk (df : DataFrame) : Py unit :=
  pk <- lift (getitems df pk_cols) ;;
  let duplicates := duplicated pk (len df) in
  let num_duplicates := sum_bool duplicates in
  if (0 <? num_duplicates)%nat then
    print (MDuplicateError num_duplicates) ;;
    print MDuplicateSample ;;
    print MDuplicateExit ;;
    sys_exit 1
  else
    print MCheck2Passed.

(** Validation check 3 (lines 149 to 158). *)
Definition check_description (df : DataFrame) : Py unit :=
  description <- lift (getitem df "description") ;;
  let max_desc_len := max_str_len description in
  if exceeds max_desc_len db_desc_limit then
    print (MDescriptionWarning max_desc_len)
  else
    print (MCheck3Passed max_desc_len).

(** Lines 114 to 158. *)
Definition validate (df : DataFrame) : Py unit :=
  print MValidating ;;
  check_null_pk df ;;
  check_duplicate_pk df ;;
  check_description df.


(** ** The target table *)

(** The primary key of a stored row. *)
Definition pk_of (r : Row) : list (option Cell) := map (field r) pk_cols.

Definition pk_eq_dec : forall k k' : list (option Cell), {k = k'} + {k <> k'}.
Proof.
  apply list_eq_dec. intros x y. decide equality. apply Cell_eq_dec.
Defined.

(** The key has a column that is absent or null. *)
Definition pk_has_null (r : Row) : bool :=
  existsb (fun o => match o with
                    | Some c => is_null c
                    | None => true
                    end) (pk_of r).

(** Two rows carry the same primary-key triple. *)
Definition same_pk (r r' : Row) : bool :=
  if pk_eq_dec (pk_of r) (pk_of r') then true else false.

(** The key is already in the table. *)
Definition pk_in (t : Table) (r : Row) : bool :=
  existsb (fun r' => same_pk r' r) t.

(** The description is a string longer than the column allows. *)
Definition description_too_long (r : Row) : bool :=
  match field r "description" with
  | Some (CStr x) => (db_desc_limit <? String.length x)%nat
  | _ => false
  end.

(** Modelled from the spec: the CREATE TABLE statement of [statcast_data] is
    not among the sources. The table is keyed by the composite primary key
    (game_pk, at_bat_number, pitch_number) and [description] is a text column
    bounded by 100 characters. Inserting one row: an overlong description is
    a data error, a null or already present key an integrity error,
    otherwise the row is appended. *)
Definition insert_row (t : Table) (r : Row) : Result Table :=
  if description_too_long r then Raise DataError
  else if pk_has_null r then Raise IntegrityError
  else if pk_in t r then Raise IntegrityError
  else Ok (t ++ [r]).

(** One INSERT statement with several rows ([method='multi']). *)
Fixpoint exec_insert (t : Table) (rows : list Row) : Result Table :=
  match rows with
  | [] => Ok t
  | r :: rows' =>
      match insert_row t r with
      | Raise e => Raise e
      | Ok t' => exec_insert t' rows'
      end
  end.

(** The chunk loop of [to_sql]: chunk [i] holds the rows from
    [i * chunksize] to [min((i + 1) * chunksize, nrows)]. *)
Definition insert_chunks (chunksize : nat) (t : Table) (rows : list Row)
  : Result Table :=
  let nrows := List.length rows in
  fold_left
    (fun acc i =>
       match acc with
       | Raise e => Raise e
       | Ok t' =>
           let start_i := i * chunksize in
           let end_i := Nat.min ((i + 1) * chunksize) nrows in
           if (end_i <=? start_i)%nat then Ok t'
           else exec_insert t' (firstn (end_i - start_i) (skipn start_i rows))
       end)
    (seq 0 (nrows / chunksize + 1)) (Ok t).

(** ** The world of one run *)

Record World := {
  (** the five DB_* variables are all set *)
  credentials : bool;
  (** the newest CSV of the data directory, and what [pd.read_csv] makes of
      it: [None] when there is no file, [Some None] when it does not parse *)
  latest_csv : option (option DataFrame);
  (** [create_engine] accepts the URL *)
  engine_ok : bool;
  (** the database answers the connection test *)
  db_reachable : bool;
  (** the database fails during the insert for a reason other than a
      constraint of the table *)
  db_fault : bool;
  (** the rows in [statcast_data] before the run *)
  table : Table
}.

Definition set_engine (e : option Engine) : Py unit :=
  fun p => (Ok tt, {| stdout := stdout p; db := db p; engine := e |}).

Definition set_db (t : Table) : Py unit :=
  fun p => (Ok tt, {| stdout := stdout p; db := t; engine := engine p |}).

Definition get_process : Py Process := fun p => (Ok p, p).

(** [pd.read_csv(csv_file_path, low_memory=False)] *)
Definition read_csv (file : option DataFrame) : Result DataFrame :=
  match file with
  | Some df => Ok df
  | None => Raise ParserError
  end.

(** Step 2 (lines 74 to 168). *)
Definition read_and_validate (file : option DataFrame) : Py DataFrame :=
  try_except
    (print MReadingCsv ;;
     df <- lift (read_csv file) ;;
     print (MReadRows (len df)) ;;
     df <- lift (normalize df) ;;
     validate df ;;
     ret df)
    [(is_Exception, fun e => print (MProcessingError e) ;; sys_exit 1)].

(** [create_engine(DATABASE_URL, echo=False)]: no connection is opened. *)
Definition create_engine (w : World) : Py unit :=
  if engine_ok w then set_engine (Some {| pooled := 0; disposed := false |})
  else raise ArgumentError.

(** [engine.connect()] and the end of its [with] block: the connection is
    opened, then handed back to the pool, which keeps it open. *)
Definition engine_connect (w : World) (body : Py unit) : Py unit :=
  p <- get_process ;;
  match engine p with
  | None => raise (NameError "engine")
  | Some e =>
      if db_reachable w then
        try_finally body
          (set_engine (Some {| pooled := Nat.max 1 (pooled e);
                               disposed := disposed e |}))
      else raise OperationalError
  end.

(** Step 3 (lines 170 to 182). *)
Definition connect (w : World) : Py unit :=
  try_except
    (print MConnecting ;;
     create_engine w ;;
     engine_connect w (print MConnected))
    [(is_Exception, fun e => print (MConnectError e) ;; sys_exit 1)].

(** [df.to_sql(name=TABLE_NAME, con=engine, if_exists='append', index=False,
    method='multi', chunksize=1000)]: every chunk is inserted in one
    transaction, which is rolled back when a statement fails. *)
Definition to_sql (w : World) (df : DataFrame) : Py unit :=
  p <- get_process ;;
  if db_fault w then raise OperationalError
  else
    match insert_chunks 1000 (db p) (rows_of df) with
    | Raise e => raise e
    | Ok t => set_db t
    end.

(** [engine.dispose()] *)
Definition dispose : Py unit :=
  set_engine (Some {| pooled := 0; disposed := true |}).

(** Lines 231 to 235. *)
Definition close_engine : Py unit :=
  p <- get_process ;;
  match engine p with
  | Some _ => dispose ;; print MEngineClosed
  | None => ret tt
  end.

(** Step 4 (lines 184 to 235). *)
Definition load (w : World) (df : DataFrame) : Py unit :=
  try_finally
    (try_except
       (print MLoading ;;
        to_sql w df ;;
        print (MLoaded (len df)))
       [(is_IntegrityError, fun e => print MIntegrityError);
        (is_Exception, fun e => print (MLoadError e) ;; sys_exit 1)])
    close_engine.

(** The script, from the credential check to its last line. *)
Definition script (w : World) : Py unit :=
  (if credentials w then ret tt else print MNoCredentials ;; sys_exit 1) ;;
  print MStarting ;;
  match latest_csv w with
  | None => print MNoCsvFound ;; sys_exit 1
  | Some file =>
      print MFoundFile ;;
      df <- read_and_validate file ;;
      connect w ;;
      load w df ;;
      print MFinished
  end.

Definition start (w : World) : Process :=
  {| stdout := []; db := table w; engine := None |}.

(** The process when the interpreter stops. *)
Definition run (w : World) : Result unit * Process := script w (start w).


(** * [fetch_data.py] *)

Definition COLUMNS_TO_KEEP : list string :=
  ["pitch_type"; "game_date"; "release_speed"; "release_pos_x"; "release_pos_z";
   "player_name"; "batter"; "pitcher"; "events"; "description"; "zone";
   "des"; "game_type"; "stand"; "p_throws"; "home_team"; "away_team";
   "type"; "hit_location"; "bb_type"; "balls"; "strikes"; "game_year";
   "pfx_x"; "pfx_z"; "plate_x"; "plate_z"; "on_3b"; "on_2b"; "on_1b";
   "outs_when_up"; "inning"; "inning_topbot"; "hc_x"; "hc_y";
   "sv_id"; "vx0"; "vy0"; "vz0"; "ax"; "ay"; "az";
   "sz_top"; "sz_bot"; "hit_distance_sc"; "launch_speed"; "launch_angle";
   "effective_speed"; "release_spin_rate"; "release_extension"; "game_pk";
   "fielder_2"; "fielder_3"; "fielder_4"; "fielder_5";
   "fielder_6"; "fielder_7"; "fielder_8"; "fielder_9";
   "estimated_ba_using_speedangle"; "estimated_woba_using_speedangle";
   "woba_value"; "woba_denom"; "babip_value"; "iso_value";
   "launch_speed_angle"; "at_bat_number"; "pitch_number"; "pitch_name";
   "home_score"; "away_score"; "bat_score"; "fld_score"; "post_away_score";
   "post_home_score"; "post_bat_score"; "post_fld_score"].

(** The records the script logs. *)
Inductive LogRecord :=
| info_looking_up
| error_player_not_found
| warning_multiple_players
| info_found_id (player_id : Z)
| error_lookup
| info_fetching
| warning_no_data
| info_fetched (n : nat)
| error_fetching
| info_selecting
| warning_missing_columns (missing : list string)
| info_directory
| error_directory
| info_saved
| error_saving
| info_no_data
| info_finished.

(** What the fetch script finds outside: the answers of pybaseball ([None]
    when the call raises) and of the file system. *)
Record Source := {
  (** the [key_mlbam] column of [playerid_lookup(last, first, fuzzy=True)] *)
  lookup : option (list Z);
  (** [PLAYER_TYPE], lower-cased *)
  player_type : string;
  (** the frame of [statcast_pitcher]; [Some None] when it returns [None] *)
  pitcher_data : option (option DataFrame);
  (** the frame of [statcast_batter] *)
  batter_data : option (option DataFrame);
  makedirs_ok : bool;
  to_csv_ok : bool
}.

(** [find_player_id] *)
Definition find_player_id (src : Source) : list LogRecord * option Z :=
  match lookup src with
  | None => ([info_looking_up; error_lookup], None)
  | Some [] => ([info_looking_up; error_player_not_found], None)
  | Some [player_id] => ([info_looking_up; info_found_id player_id], Some player_id)
  | Some (player_id :: _) =>
      ([info_looking_up; warning_multiple_players; info_found_id player_id],
       Some player_id)
  end.

(** [df.empty]: one of the axes has length 0. *)
Definition empty (df : DataFrame) : bool :=
  (List.length df =? 0)%nat || (len df =? 0)%nat.

(** [get_statcast_data] *)
Definition get_statcast_data (src : Source) : list LogRecord * option DataFrame :=
  let answer :=
    if String.eqb (player_type src) "pitcher" then pitcher_data src
    else batter_data src in
  match answer with
  | None => ([info_fetching; error_fetching], None)
  | Some None => ([info_fetching; warning_no_data], None)
  | Some (Some data) =>
      if empty data then ([info_fetching; warning_no_data], None)
      else ([info_fetching; info_fetched (len data)], Some data)
  end.

(** [clean_and_select_columns] *)
Definition clean_and_select_columns (df : DataFrame) (columns_to_keep : list string)
  : list LogRecord * DataFrame :=
  let existing_columns := filter (fun col => has_col df col) columns_to_keep in
  let missing_columns := filter (fun col => negb (has_col df col)) columns_to_keep in
  (info_selecting ::
   match missing_columns with
   | [] => []
   | _ :: _ => [warning_missing_columns missing_columns]
   end,
   select df existing_columns).

(** The outcome of the fetch script: its log, the frame written to the CSV
    snapshot if any, and the exit status. *)
Record Fetched := {
  logged : list LogRecord;
  snapshot : option DataFrame;
  fetch_status : Z
}.

(** The script (lines 85 to 111). *)
Definition fetch (src : Source) : Fetched :=
  let (log1, mlbam_id) := find_player_id src in
  match mlbam_id with
  | None => {| logged := log1; snapshot := None; fetch_status := 1 |}
  | Some _ =>
      let (log2, statcast_df) := get_statcast_data src in
      match statcast_df with
      | None =>
          {| logged := log1 ++ log2 ++ [info_no_data];
             snapshot := None; fetch_status := 1 |}
      | Some df =>
          let (log3, cleaned_df) := clean_and_select_columns df COLUMNS_TO_KEEP in
          if negb (makedirs_ok src) then
            {| logged := log1 ++ log2 ++ log3 ++ [error_directory];
               snapshot := None; fetch_status := 1 |}
          else if negb (to_csv_ok src) then
            {| logged := log1 ++ log2 ++ log3 ++ [info_directory; error_saving];
               snapshot := None; fetch_status := 1 |}
          else
            {| logged := log1 ++ log2 ++ log3 ++
                         [info_directory; info_saved; info_finished];
               snapshot := Some cleaned_df; fetch_status := 0 |}
      end
  end.

(** * File discovery and the name of the snapshot *)

(** [s.startswith(p)] *)
Fixpoint startswith (s p : string) : bool :=
  match p with
  | EmptyString => true
  | String a p' =>
      match s with
      | EmptyString => false
      | String b s' => Ascii.eqb a b && startswith s' p'
      end
  end.

(** [s.endswith(suffix)] *)
Fixpoint endswith (s suffix : string) : bool :=
  String.eqb s suffix
  || match s with
     | EmptyString => false
     | String _ s' => endswith s' suffix
     end.

(** [os.path.join(directory, f)] with the POSIX separator. *)
Definition path_join (directory f : string) : string :=
  if startswith f "/" then f
  else if String.eqb directory "" || endswith directory "/"
       then String.append directory f
       else String.append directory (String.append "/" f).

(** What [os.path.getmtime] gives for a file: its modification time, or the
    exception it raises. *)
Inductive Stat :=
| Mtime (t : Z)
| StatNotFound
| StatError.

Record Entry := { entry_name : string; entry_mtime : Stat }.

(** What [os.listdir] gives for the data directory. *)
Inductive Listing :=
| Listed (entries : list Entry)
| ListNotFound
| ListError.

(** The two lines [find_latest_csv] can print. *)
Inductive FinderMsg :=
| MDirectoryNotFound
| MFinderError.

(** The filter of the list comprehension (line 46). *)
Definition is_candidate (prefix f : string) : bool :=
  endswith (lower f) ".csv"
  && (String.eqb prefix "" || startswith (lower f) (lower prefix)).

(** [max(files, key=os.path.getmtime)] after the first file: the keys are
    computed in the order of the list and a later file replaces the best one
    only when it is strictly newer. *)
Fixpoint newest_from (best : Entry) (t : Z) (rest : list Entry) : Entry + Stat :=
  match rest with
  | [] => inl best
  | e :: rest' =>
      match entry_mtime e with
      | Mtime t' =>
          if (t <? t')%Z then newest_from e t' rest' else newest_from best t rest'
      | failure => inr failure
      end
  end.

(** [find_latest_csv] (lines 40 to 57). *)
Definition find_latest_csv (directory : string) (listing : Listing)
    (prefix : string) : list FinderMsg * option string :=
  match listing with
  | ListNotFound => ([MDirectoryNotFound], None)
  | ListError => ([MFinderError], None)
  | Listed entries =>
      match filter (fun e => is_candidate prefix (entry_name e)) entries with
      | [] => ([], None)
      | e :: rest =>
          match entry_mtime e with
          | Mtime t =>
              match newest_from e t rest with
              | inl found => ([], Some (path_join directory (entry_name found)))
              | inr StatNotFound => ([MDirectoryNotFound], None)
              | inr _ => ([MFinderError], None)
              end
          | StatNotFound => ([MDirectoryNotFound], None)
          | StatError => ([MFinderError], None)
          end
      end
  end.

(** [os.getenv(name, default)] *)
Definition getenv (value : option string) (default : string) : string :=
  match value with
  | Some v => v
  | None => default
  end.

(** The environment variables of [fetch_data.py] (lines 16 to 20). *)
Record Environ := {
  env_first_name : option string;
  env_last_name : option string;
  env_player_type : option string;
  env_start_date : option string;
  env_end_date : option string
}.

Definition PLAYER_FIRST_NAME (env : Environ) : string :=
  getenv (env_first_name env) "Shohei".

Definition PLAYER_LAST_NAME (env : Environ) : string :=
  getenv (env_last_name env) "Ohtani".

Definition PLAYER_TYPE (env : Environ) : string :=
  lower (getenv (env_player_type env) "batter").

Definition START_DATE (env : Environ) : string :=
  getenv (env_start_date env) "2023-01-01".

Definition END_DATE (env : Environ) : string :=
  getenv (env_end_date env) "2023-12-31".

(** [OUTPUT_FILENAME] (line 21). *)
Definition OUTPUT_FILENAME (env : Environ) : string :=
  String.append (lower (PLAYER_FIRST_NAME env))
    (String.append "_"
       (String.append (lower (PLAYER_LAST_NAME env))
          (String.append "_"
             (String.append (PLAYER_TYPE env)
                (String.append "_statcast_"
                   (String.append (START_DATE env)
                      (String.append "_to_"
                         (String.append (END_DATE env) ".csv")))))))).

(** * Row-wise readings used in the statements *)

(** The row has a null in at least one primary-key column. *)
Definition null_in_pk (r : Row) : bool :=
  existsb (fun o => match o with
                    | Some v => is_null v
                    | None => false
                    end) (pk_of r).

(** The number of rows with a null in at least one primary-key column. *)
Definition null_pk_count (df : DataFrame) : nat :=
  List.length (filter null_in_pk (rows_of df)).

(** Row [i] shares its primary-key triple with another row of the frame. *)
Definition shares_pk (df : DataFrame) (i : nat) : bool :=
  existsb (fun j => negb (j =? i)%nat && same_pk (row_at df j) (row_at df i))
    (seq 0 (len df)).

(** The number of rows that take part in a duplicate group. *)
Definition duplicate_count (df : DataFrame) : nat :=
  List.length (filter (shares_pk df) (seq 0 (len df))).

(** What the validator prints when check 1, check 2 or neither stops it. *)
Definition null_pk_report (df : DataFrame) : list Msg :=
  [MValidating; MNullPkError (null_pk_count df); MNullPkSample; MNullPkExit].

Definition duplicate_report (df : DataFrame) : list Msg :=
  [MValidating; MCheck1Passed; MDuplicateError (duplicate_count df);
   MDuplicateSample; MDuplicateExit].

Definition description_report (d : Series) : list Msg :=
  [MValidating; MCheck1Passed; MCheck2Passed;
   if exceeds (max_str_len d) db_desc_limit
   then MDescriptionWarning (max_str_len d)
   else MCheck3Passed (max_str_len d)].

(** The line is printed by step 2 of the script. *)
Definition from_step2 (m : Msg) : bool :=
  match m with
  | MReadingCsv | MReadRows _ | MValidating
  | MNullPkError _ | MNullPkSample | MNullPkExit | MCheck1Passed
  | MDuplicateError _ | MDuplicateSample | MDuplicateExit | MCheck2Passed
  | MDescriptionWarning _ | MCheck3Passed _ | MProcessingError _ => true
  | _ => false
  end.

(** The connection test of step 3 has succeeded. *)
Definition connection_tested (l : list Msg) : bool :=
  existsb (fun m => match m with MConnected => true | _ => false end) l.

(** The process after it has printed the lines [l]. *)
Definition say (p : Process) (l : list Msg) : Process :=
  {| stdout := stdout p ++ l; db := db p; engine := engine p |}.

(** The line is printed before step 3 starts. *)
Definition before_step3 (m : Msg) : bool :=
  match m with
  | MNoCredentials | MStarting | MNoCsvFound | MFoundFile => true
  | _ => from_step2 m
  end.

(** The same world over another content of the table. *)
Definition with_table (w : World) (t : Table) : World :=
  {| credentials := credentials w; latest_csv := latest_csv w;
     engine_ok := engine_ok w; db_reachable := db_reachable w;
     db_fault := db_fault w; table := t |}.

(** The end of the script after step 4. *)
Definition finish (r : Result unit * Process) : Result unit * Process :=
  match r with
  | (Ok _, p) => (Ok tt, say p [MFinished])
  | (Raise e, p) => (Raise e, p)
  end.

(** The process when step 4 starts, after the lines [l]. *)
Definition connected (l : list Msg) (t : Table) : Process :=
  {| stdout := l ++ [MConnecting; MConnected]; db := t;
     engine := Some {| pooled := 1; disposed := false |} |}.



(** The primary-key constraint of the table: no two rows with the same key,
    no key with a null or absent column. *)
Definition keys_unique (t : Table) : Prop :=
  NoDup (map pk_of t) /\ forall r, In r t -> pk_has_null r = false.

(** The engine after [dispose]. *)
Definition disposed_engine : option Engine :=
  Some {| pooled := 0; disposed := true |}.

End Frames.

(** * A concrete dataframe library for the examples

    Rationals stand for floats and nanosecond counts for timestamps; numbers
    and dates are read from plain decimal digits. *)

Module Sample.

Definition digits (s : string) : option Z :=
  match s with
  | EmptyString => None
  | _ => option_map Z.of_int (NilZero.int_of_string s)
  end.

Definition Q : Type := QArith_base.Q.

Definition Q_eq_dec (x y : Q) : {x = y} + {x <> y}.
Proof.
  decide equality.
  - apply Pos.eq_dec.
  - apply Z.eq_dec.
Defined.

Definition whole (q : Q) : option Z :=
  match QArith_base.Qden q with
  | xH => Some (QArith_base.Qnum q)
  | _ => None
  end.

#[export] Instance pandas : Pandas := {|
  float := Q;
  Timestamp := Z;
  float_eq_dec := Q_eq_dec;
  timestamp_eq_dec := Z.eq_dec;
  float_of_int := QArith_base.inject_Z;
  int_of_float := whole;
  int_of_string := digits;
  parse_number := fun s => option_map inl (digits s);
  datetime_of_string := digits;
  datetime_of_int := Some;
  datetime_of_float := whole;
  timestamp_value := fun t => t;
  str_of_float := fun q => str_of_int (QArith_base.Qnum q);
  str_of_timestamp := str_of_int
|}.

(** A string of [n] letters. *)
Fixpoint letters (n : nat) : string :=
  match n with
  | O => EmptyString
  | S n' => String "x" (letters n')
  end.

(** Frames as the validator receives them. *)

Definition ints (l : list Z) : Series := SInt64NA (map Some l).



(** Two rows with distinct keys and no other column. *)
Definition keys_only : DataFrame :=
  [("game_pk", ints [1; 1]%Z); ("at_bat_number", ints [1; 1]%Z);
   ("pitch_number", ints [1; 2]%Z)].

(** Two rows with distinct keys, one description of 101 characters. *)
Definition long_description : DataFrame :=
  [("game_pk", ints [1; 1]%Z); ("at_bat_number", ints [1; 1]%Z);
   ("pitch_number", ints [1; 2]%Z);
   ("description", SObject [Some "x"; Some (letters 101)])].

(** One row with a null key column. *)
Definition null_key : DataFrame :=
  [("game_pk", SInt64NA [Some 1; None]%Z); ("at_bat_number", ints [1; 1]%Z);
   ("pitch_number", ints [1; 2]%Z);
   ("description", SObject [Some "x"; Some "y"])].

(** Files as [pd.read_csv] returns them. *)

(** Two pitches of one game. *)
Definition two_pitches : DataFrame :=
  [("game_pk", SInt64 [1; 1]%Z); ("at_bat_number", SInt64 [1; 1]%Z);
   ("pitch_number", SInt64 [1; 2]%Z);
   ("description", SObject [Some "ball"; Some "foul"]);
   ("game_date", SObject [Some "20230401"; Some "20230401"]);
   ("release_speed", SObject [Some "90"; Some "fast"])].


(** The key columns alone. *)
Definition keys_file : DataFrame :=
  [("game_pk", SInt64 [1; 1]%Z); ("at_bat_number", SInt64 [1; 1]%Z);
   ("pitch_number", SInt64 [1; 2]%Z)].

(** Release speeds that are all whole numbers, as [pd.read_csv] types them. *)
Definition whole_speeds : DataFrame :=
  [("release_speed", SInt64 [90; 95]%Z)].

(** A run with everything in place, over the table [t]. *)
Definition world (file : DataFrame) (t : Table) : World :=
  {| credentials := true; latest_csv := Some (Some file); engine_ok := true;
     db_reachable := true; db_fault := false; table := t |}.


(** The first pitch of [two_pitches], as stored by an earlier run. *)
Definition stored_pitch : Row :=
  [("game_pk", CInt 1); ("at_bat_number", CInt 1); ("pitch_number", CInt 1);
   ("description", CStr "ball")].

(** The second pitch of [two_pitches], as a run stores it. *)
Definition second_pitch : Row :=
  [("game_pk", CInt 1); ("at_bat_number", CInt 1); ("pitch_number", CInt 2);
   ("description", CStr "foul"); ("game_date", CTime 20230401%Z);
   ("release_speed", CNull)].

(** What pybaseball returns for one batter: four columns of the schema and
    one that is not in it. *)
Definition statcast_answer : DataFrame :=
  [("game_pk", SInt64 [1; 1]%Z); ("at_bat_number", SInt64 [1; 1]%Z);
   ("pitch_number", SInt64 [1; 2]%Z); ("spin_dir", SFloat64 [None; None]);
   ("description", SObject [Some "ball"; Some "foul"])].

Definition batter_source : Source :=
  {| lookup := Some [660271%Z]; player_type := "batter";
     pitcher_data := None; batter_data := Some (Some statcast_answer);
     makedirs_ok := true; to_csv_ok := true |}.

(** The snapshot of [batter_source], read back. *)
Definition batter_file : DataFrame :=
  [("description", SObject [Some "ball"; Some "foul"]);
   ("game_pk", SInt64 [1; 1]%Z); ("at_bat_number", SInt64 [1; 1]%Z);
   ("pitch_number", SInt64 [1; 2]%Z)].

(** A source without the description column; its snapshot is [keys_file]. *)
Definition keys_source : Source :=
  {| lookup := Some [660271%Z]; player_type := "batter";
     pitcher_data := None; batter_data := Some (Some keys_file);
     makedirs_ok := true; to_csv_ok := true |}.

(** A file with a column that the schema does not have. *)
Definition extra_column_file : DataFrame :=
  [("game_pk", SInt64 [1]%Z); ("at_bat_number", SInt64 [1]%Z);
   ("pitch_number", SInt64 [1]%Z); ("description", SObject [Some "ball"]);
   ("spin_dir", SFloat64 [None])].

(** A process that has printed nothing, on an empty table. *)
Definition fresh : Process := {| stdout := []; db := []; engine := None |}.

(** [two_pitches] after the preparation of step 2. *)
Definition two_pitches_prepared : DataFrame :=
  [("game_pk", ints [1; 1]%Z); ("at_bat_number", ints [1; 1]%Z);
   ("pitch_number", ints [1; 2]%Z);
   ("description", SObject [Some "ball"; Some "foul"]);
   ("game_date", SDatetime [Some 20230401; Some 20230401]%Z);
   ("release_speed", SFloat64 [Some (QArith_base.inject_Z 90); None])].

(** The two rows of [two_pitches_prepared]. *)
Definition first_pitch : Row :=
  [("game_pk", CInt 1); ("at_bat_number", CInt 1); ("pitch_number", CInt 1);
   ("description", CStr "ball"); ("game_date", CTime 20230401%Z);
   ("release_speed", CFloat (QArith_base.inject_Z 90))].

(** The runner on first base in two pitches: a player id, then nobody. *)
Definition on_first : Series :=
  SFloat64 [Some (QArith_base.Qmake 660271 1); None].

Definition runners : DataFrame := [("on_1b", on_first)].

Definition runners_cast : DataFrame :=
  [("on_1b", SInt64NA [Some 660271; None]%Z)].

(** One pitch whose count of balls is one half. *)
Definition half_ball : DataFrame :=
  [("game_pk", SInt64 [1]%Z); ("at_bat_number", SInt64 [1]%Z);
   ("pitch_number", SInt64 [1]%Z); ("description", SObject [Some "ball"]);
   ("Balls", SFloat64 [Some (QArith_base.Qmake 1 2)])].

(** One pitch without its pitch number. *)
Definition no_pitch_number : DataFrame :=
  [("game_pk", SInt64 [1]%Z); ("at_bat_number", SInt64 [1]%Z);
   ("description", SObject [Some "ball"])].

(** A file that holds the header line alone. *)
Definition header_only : DataFrame :=
  [("game_pk", SObject []); ("at_bat_number", SObject []);
   ("pitch_number", SObject []); ("description", SObject [])].

(** The file that is prepared into [long_description]. *)
Definition long_description_file : DataFrame :=
  [("game_pk", SInt64 [1; 1]%Z); ("at_bat_number", SInt64 [1; 1]%Z);
   ("pitch_number", SInt64 [1; 2]%Z);
   ("description", SObject [Some "x"; Some (letters 101)])].

(** The release speeds of [two_pitches], as [pd.read_csv] types them. *)
Definition speeds : Series := SObject [Some "90"; Some "fast"].

(** One row without the game_pk column and with a null at-bat number. *)
Definition no_game_pk : DataFrame :=
  [("at_bat_number", SInt64NA [None]); ("pitch_number", ints [1]%Z);
   ("description", SObject [Some "ball"])].


(** No variable of the fetch script is set. *)
Definition defaults : Environ :=
  {| env_first_name := None; env_last_name := None; env_player_type := None;
     env_start_date := None; env_end_date := None |}.

(** The data directory: a text file, an older snapshot and the snapshot
    written under the default names. *)
Definition raw_directory : list Entry :=
  [{| entry_name := "notes.txt"; entry_mtime := Mtime 300 |};
   {| entry_name := "Aaron_Judge_batter_statcast_2022-04-01_to_2022-10-05.CSV";
      entry_mtime := Mtime 100 |};
   {| entry_name := "shohei_ohtani_batter_statcast_2023-01-01_to_2023-12-31.csv";
      entry_mtime := Mtime 200 |}].

End Sample.

(** * Properties *)

Section Properties.

Context {P : Pandas}.

(** ** Lists of names and columns *)

Lemma mem_In x xs : mem x xs = true <-> In x xs.
Proof.
  unfold mem. rewrite existsb_exists. split.
  - intros [y [Hy E]]. apply String.eqb_eq in E. now subst.
  - intros H. exists x. split; [assumption | apply String.eqb_refl].
Qed.

Lemma mem_false x xs : mem x xs = false <-> ~ In x xs.
Proof.
  rewrite <- mem_In. destruct (mem x xs); split; congruence.
Qed.

Lemma get_col_In df c s : get_col df c = Some s -> In c (columns df).
Proof.
  induction df as [|[c' s'] df IH]; simpl; [discriminate|].
  destruct (String.eqb_spec c' c); [now left | right; auto].
Qed.

Lemma get_col_None df c : get_col df c = None <-> ~ In c (columns df).
Proof.
  induction df as [|[c' s'] df IH]; simpl.
  - tauto.
  - destruct (String.eqb_spec c' c).
    + split; [discriminate | intros H; exfalso; apply H; now left].
    + rewrite IH. tauto.
Qed.

Lemma has_col_get df c : has_col df c = true <-> exists s, get_col df c = Some s.
Proof.
  unfold has_col. rewrite mem_In. split.
  - intros H. destruct (get_col df c) eqn:E; [eauto|].
    apply get_col_None in E. contradiction.
  - intros [s H]. eapply get_col_In; eauto.
Qed.

Lemma columns_set_col df c s : columns (set_col df c s) = columns df.
Proof.
  induction df as [|[c' s'] df IH]; simpl; [reflexivity|].
  destruct (String.eqb c' c); simpl; [reflexivity | now rewrite IH].
Qed.

Lemma get_set_same df c s s0 :
  get_col df c = Some s0 -> get_col (set_col df c s) c = Some s.
Proof.
  induction df as [|[c' s'] df IH]; simpl; [discriminate|].
  destruct (String.eqb c' c) eqn:E; simpl; rewrite E; auto.
Qed.

Lemma get_set_other df c c' s :
  c <> c' -> get_col (set_col df c s) c' = get_col df c'.
Proof.
  intros N. induction df as [|[c0 s0] df IH]; simpl; [reflexivity|].
  destruct (String.eqb_spec c0 c); simpl.
  - subst. destruct (String.eqb_spec c c'); [contradiction | reflexivity].
  - destruct (String.eqb c0 c'); auto.
Qed.

Lemma columns_lower df : columns (lower_columns df) = map lower (columns df).
Proof.
  unfold columns, lower_columns. rewrite !map_map. reflexivity.
Qed.

Lemma convert_col_columns f col df df' :
  convert_col f col df = Ok df' -> columns df' = columns df.
Proof.
  unfold convert_col, getitem.
  destruct (has_col df col); [|now intros [= <-]].
  destruct (get_col df col); [|discriminate].
  destruct (f s); [|discriminate].
  intros [= <-]. apply columns_set_col.
Qed.

Lemma convert_cols_columns f cols : forall df df',
  convert_cols f cols df = Ok df' -> columns df' = columns df.
Proof.
  induction cols as [|c cols IH]; simpl; intros df df' H.
  - now injection H as <-.
  - destruct (convert_col f c df) eqn:E; [|discriminate].
    rewrite (IH _ _ H). eapply convert_col_columns; eauto.
Qed.

Lemma normalize_columns df df' :
  normalize df = Ok df' -> columns df' = map lower (columns df).
Proof.
  unfold normalize, prepare_dates, coerce_numeric, cast_integers.
  destruct (convert_col _ _ _) eqn:E1; [|discriminate].
  destruct (convert_cols _ numeric_cols _) eqn:E2; [|discriminate].
  intros E3.
  rewrite (convert_cols_columns _ _ _ _ E3), (convert_cols_columns _ _ _ _ E2),
    (convert_col_columns _ _ _ _ E1).
  apply columns_lower.
Qed.


(** ** The checks read row by row *)

Lemma existsb_map {A B} (f : B -> bool) (g : A -> B) l :
  existsb f (map g l) = existsb (fun a => f (g a)) l.
Proof.
  induction l as [|a l IH]; simpl; [reflexivity | now rewrite IH].
Qed.

Lemma sum_bool_map {A} (f : A -> bool) l :
  sum_bool (map f l) = List.length (filter f l).
Proof.
  unfold sum_bool. induction l as [|a l IH]; simpl; [reflexivity|].
  destruct (f a); simpl; now rewrite IH.
Qed.

Lemma filter_map_length {A B} (f : B -> bool) (g : A -> B) l :
  List.length (filter f (map g l)) = List.length (filter (fun a => f (g a)) l).
Proof.
  induction l as [|a l IH]; simpl; [reflexivity|].
  destruct (f (g a)); simpl; now rewrite IH.
Qed.

Lemma field_row_at df i c :
  field (row_at df i) c = option_map (fun s => cell_at s i) (get_col df c).
Proof.
  induction df as [|[c' s'] df IH]; simpl; [reflexivity|].
  destruct (String.eqb c' c); [reflexivity | apply IH].
Qed.

Lemma getitems_Ok df cs : forall ss,
  getitems df cs = Ok ss -> map (get_col df) cs = map Some ss.
Proof.
  induction cs as [|c cs IH]; simpl; intros ss H.
  - now injection H as <-.
  - unfold getitem in H. destruct (get_col df c) eqn:E; [|discriminate].
    destruct (getitems df cs) eqn:E'; [|discriminate].
    injection H as <-. simpl. now rewrite (IH _ eq_refl).
Qed.

Lemma getitems_Raise df cs e :
  getitems df cs = Raise e -> exists c, In c cs /\ ~ In c (columns df).
Proof.
  induction cs as [|c cs IH]; simpl; [discriminate|].
  unfold getitem. destruct (get_col df c) eqn:E.
  - destruct (getitems df cs); [discriminate|].
    intros [= <-]. destruct (IH eq_refl) as [c' [H1 H2]]. eauto.
  - intros _. exists c. split; [now left | now apply get_col_None].
Qed.

Lemma pk_of_row_at df pk i :
  getitems df pk_cols = Ok pk -> pk_of (row_at df i) = map Some (key_at pk i).
Proof.
  intros H. apply getitems_Ok in H. unfold pk_of, key_at.
  rewrite (map_ext _ _ (field_row_at df i)).
  rewrite <- (map_map (get_col df) (option_map (fun s => cell_at s i))).
  rewrite H, !map_map. reflexivity.
Qed.

Lemma null_in_pk_row_at df pk i :
  getitems df pk_cols = Ok pk ->
  null_in_pk (row_at df i) = existsb (fun s => is_null (cell_at s i)) pk.
Proof.
  intros H. unfold null_in_pk. rewrite (pk_of_row_at _ _ i H).
  unfold key_at. rewrite !existsb_map. reflexivity.
Qed.

(** The count of check 1 is the number of rows with a null key column. *)
Lemma isnull_any_count df pk :
  getitems df pk_cols = Ok pk ->
  sum_bool (isnull_any pk (len df)) = null_pk_count df.
Proof.
  intros H. unfold isnull_any, null_pk_count, rows_of.
  rewrite sum_bool_map, filter_map_length.
  f_equal. apply filter_ext. intros i. symmetry. now apply null_in_pk_row_at.
Qed.

Lemma map_Some_inj {A} (l l' : list A) : map Some l = map Some l' -> l = l'.
Proof.
  revert l'. induction l as [|a l IH]; destruct l' as [|a' l']; simpl;
    try discriminate; [reflexivity|].
  intros [= -> H]. f_equal. auto.
Qed.

Lemma same_pk_row_at df pk i j :
  getitems df pk_cols = Ok pk ->
  same_pk (row_at df j) (row_at df i) = true <-> key_at pk j = key_at pk i.
Proof.
  intros H. unfold same_pk.
  rewrite !(pk_of_row_at _ _ _ H).
  destruct (pk_eq_dec _ _) as [E|N]; split; intros H'; try congruence.
  apply map_Some_inj in E. exact E.
Qed.

(** A key occurs more than once exactly when another position carries it. *)
Lemma count_occ_twice {K} (dec : forall x y : K, {x = y} + {x <> y})
    (f : nat -> K) (l : list nat) i :
  NoDup l -> In i l ->
  (1 < count_occ dec (map f l) (f i) <->
   exists j, In j l /\ j <> i /\ f j = f i).
Proof.
  intros ND Hi.
  destruct (in_split _ _ Hi) as [l1 [l2 ->]].
  apply NoDup_remove_2 in ND.
  rewrite map_app, count_occ_app. simpl.
  destruct (dec (f i) (f i)) as [_|N]; [|contradiction].
  split.
  - intros H.
    assert (C : 0 < count_occ dec (map f l1) (f i)
                \/ 0 < count_occ dec (map f l2) (f i)) by lia.
    destruct C as [C|C]; apply count_occ_In in C; apply in_map_iff in C;
      destruct C as [j [E Hj]]; exists j; (split; [|split]); auto.
    + apply in_or_app. now left.
    + intros ->. apply ND. apply in_or_app. now left.
    + apply in_or_app. right. now right.
    + intros ->. apply ND. apply in_or_app. now right.
  - intros [j [Hj [N E]]].
    apply in_app_or in Hj. destruct Hj as [Hj|[Hj|Hj]]; [| congruence |].
    + assert (0 < count_occ dec (map f l1) (f i)); [|lia].
      apply count_occ_In. rewrite <- E. now apply in_map.
    + assert (0 < count_occ dec (map f l2) (f i)); [|lia].
      apply count_occ_In. rewrite <- E. now apply in_map.
Qed.

Lemma shares_pk_duplicated df pk i :
  getitems df pk_cols = Ok pk -> In i (seq 0 (len df)) ->
  (1 <? count_occ key_eq_dec (map (key_at pk) (seq 0 (len df))) (key_at pk i))%nat
  = shares_pk df i.
Proof.
  intros H Hi. apply eq_true_iff_eq.
  rewrite Nat.ltb_lt, (count_occ_twice key_eq_dec (key_at pk) _ _ (seq_NoDup _ _) Hi).
  unfold shares_pk. rewrite existsb_exists. split.
  - intros [j [Hj [N E]]]. exists j. split; [assumption|].
    apply andb_true_iff. split.
    + apply negb_true_iff. now apply Nat.eqb_neq.
    + now apply (same_pk_row_at _ _ _ _ H).
  - intros [j [Hj E]]. apply andb_true_iff in E. destruct E as [N E].
    exists j. split; [assumption|]. split.
    + apply negb_true_iff in N. now apply Nat.eqb_neq.
    + now apply (same_pk_row_at _ _ _ _ H).
Qed.

(** The count of check 2 is the number of rows in a duplicate group. *)
Lemma duplicated_count df pk :
  getitems df pk_cols = Ok pk ->
  sum_bool (duplicated pk (len df)) = duplicate_count df.
Proof.
  intros H. unfold duplicated, duplicate_count.
  rewrite map_map, sum_bool_map.
  f_equal. apply filter_ext_in. intros i Hi. now apply shares_pk_duplicated.
Qed.


(** ** What the validator does *)

Ltac py_unfold :=
  unfold bind, ret, raise, sys_exit, print, lift, try_except, try_finally,
    set_engine, set_db, get_process, say in *.

Ltac py_simpl := py_unfold; simpl in *; repeat rewrite <- app_assoc; simpl.

Lemma validate_run df pk p :
  getitems df pk_cols = Ok pk ->
  validate df p =
    if (0 <? null_pk_count df)%nat then
      (Raise (SystemExit 1), say p (null_pk_report df))
    else if (0 <? duplicate_count df)%nat then
      (Raise (SystemExit 1), say p (duplicate_report df))
    else
      match get_col df "description" with
      | None =>
          (Raise (KeyError "description"),
           say p [MValidating; MCheck1Passed; MCheck2Passed])
      | Some d => (Ok tt, say p (description_report d))
      end.
Proof.
  intros H.
  unfold validate, check_null_pk, check_duplicate_pk, check_description,
    null_pk_report, duplicate_report, description_report, getitem.
  py_unfold. rewrite H. cbv beta iota.
  rewrite (isnull_any_count _ _ H), (duplicated_count _ _ H).
  destruct (0 <? null_pk_count df)%nat; simpl.
  - repeat rewrite <- app_assoc. reflexivity.
  - destruct (0 <? duplicate_count df)%nat; simpl.
    + repeat rewrite <- app_assoc. reflexivity.
    + destruct (get_col df "description") as [d|]; simpl.
      * destruct (exceeds _ _); simpl; repeat rewrite <- app_assoc; reflexivity.
      * repeat rewrite <- app_assoc. reflexivity.
Qed.

Lemma validate_missing_key df e p :
  getitems df pk_cols = Raise e ->
  validate df p = (Raise e, say p [MValidating]).
Proof.
  intros H. unfold validate, check_null_pk. py_unfold. rewrite H. reflexivity.
Qed.


Lemma getitems_present df cs :
  (forall c, In c cs -> In c (columns df)) -> exists ss, getitems df cs = Ok ss.
Proof.
  intros H. destruct (getitems df cs) as [ss|e] eqn:E; [eauto|].
  destruct (getitems_Raise _ _ _ E) as [c [H1 H2]]. exfalso. auto.
Qed.

Lemma filter_length_pos {A} (f : A -> bool) l a :
  In a l -> f a = true -> 0 < List.length (filter f l).
Proof.
  intros H Hf. assert (I : In a (filter f l)) by (apply filter_In; auto).
  destruct (filter f l); [contradiction | simpl; lia].
Qed.

Lemma filter_length_zero {A} (f : A -> bool) l :
  (forall a, In a l -> f a = false) -> List.length (filter f l) = 0.
Proof.
  induction l as [|a l IH]; simpl; intros H; [reflexivity|].
  rewrite (H a (or_introl eq_refl)). auto.
Qed.

Lemma same_pk_eq r r' : same_pk r r' = true <-> pk_of r = pk_of r'.
Proof.
  unfold same_pk. destruct (pk_eq_dec (pk_of r) (pk_of r')); split; congruence.
Qed.

Lemma shares_pk_true df i :
  shares_pk df i = true <->
  exists j, j < len df /\ j <> i /\ pk_of (row_at df j) = pk_of (row_at df i).
Proof.
  unfold shares_pk. rewrite existsb_exists. split.
  - intros [j [Hj E]]. apply andb_true_iff in E. destruct E as [N E].
    apply in_seq in Hj. apply negb_true_iff, Nat.eqb_neq in N.
    apply same_pk_eq in E. exists j. repeat split; auto; lia.
  - intros [j [Hj [N E]]]. exists j. split; [apply in_seq; lia|].
    apply andb_true_iff. split.
    + now apply negb_true_iff, Nat.eqb_neq.
    + now apply same_pk_eq.
Qed.

(** C4, amended: when the labels of the frame are distinct, the frame has
    the three primary-key columns and some row has a null in one of them,
    the validator stops the run with exit status 1 after reporting a count
    that is the number of rows with a null in at least one primary-key
    column. *)
Theorem null_pk_rejected_with_count (df : DataFrame) (p : Process) :
  NoDup (columns df) ->
  (forall c, In c pk_cols -> In c (columns df)) ->
  (exists r, In r (rows_of df) /\ null_in_pk r = true) ->
  validate df p =
    (Raise (SystemExit 1),
     say p [MValidating;
            MNullPkError (List.length (filter null_in_pk (rows_of df)));
            MNullPkSample; MNullPkExit]).
Proof.
  intros _ Hc [r [Hr Hn]].
  destruct (getitems_present _ _ Hc) as [pk Hpk].
  rewrite (validate_run _ _ p Hpk).
  assert (L : 0 < null_pk_count df)
    by (unfold null_pk_count; eapply filter_length_pos; eauto).
  apply Nat.ltb_lt in L. rewrite L. reflexivity.
Qed.


(** C5, amended: a frame whose labels are distinct, that has the three
    primary-key columns and a description column, no null primary-key value
    and no duplicate primary-key triple passes the validator, whatever the
    length of its descriptions; an overlong description only changes the
    line printed by check 3. *)
Theorem clean_keys_pass (df : DataFrame) (d : Series) (p : Process) :
  NoDup (columns df) ->
  (forall c, In c pk_cols -> In c (columns df)) ->
  get_col df "description" = Some d ->
  (forall r, In r (rows_of df) -> null_in_pk r = false) ->
  (forall i j, i < len df -> j < len df -> i <> j ->
               pk_of (row_at df i) <> pk_of (row_at df j)) ->
  validate df p =
    (Ok tt,
     say p [MValidating; MCheck1Passed; MCheck2Passed;
            if exceeds (max_str_len d) db_desc_limit
            then MDescriptionWarning (max_str_len d)
            else MCheck3Passed (max_str_len d)]).
Proof.
  intros _ Hc Hd Hn Hu.
  destruct (getitems_present _ _ Hc) as [pk Hpk].
  rewrite (validate_run _ _ p Hpk).
  assert (Z0 : null_pk_count df = 0)
    by (unfold null_pk_count; now apply filter_length_zero).
  assert (Z1 : duplicate_count df = 0).
  { unfold duplicate_count. apply filter_length_zero. intros i Hi.
    apply in_seq in Hi.
    destruct (shares_pk df i) eqn:E; [|reflexivity].
    apply shares_pk_true in E. destruct E as [j [Hj [N E]]].
    exfalso. apply (Hu j i); auto. lia. }
  rewrite Z0, Z1, Hd. reflexivity.
Qed.



(** ** The table and the chunk loop *)

Lemma exec_insert_app t a : forall b,
  exec_insert t (a ++ b) =
    match exec_insert t a with
    | Ok t' => exec_insert t' b
    | Raise e => Raise e
    end.
Proof.
  revert t. induction a as [|r a IH]; simpl; intros t b; [reflexivity|].
  destruct (insert_row t r); [apply IH | reflexivity].
Qed.

Lemma firstn_plus {A} (a b : nat) : forall l : list A,
  firstn (a + b) l = firstn a l ++ firstn b (skipn a l).
Proof.
  induction a as [|a IH]; simpl; intros l; [reflexivity|].
  destruct l as [|x l]; simpl.
  - now rewrite firstn_nil.
  - now rewrite IH.
Qed.

Section Chunks.

Variable chunksize : nat.
Hypothesis chunksize_pos : 0 < chunksize.
Variable rows : list Row.

Let step (acc : Result Table) (i : nat) : Result Table :=
  match acc with
  | Raise e => Raise e
  | Ok t' =>
      let start_i := i * chunksize in
      let end_i := Nat.min ((i + 1) * chunksize) (List.length rows) in
      if (end_i <=? start_i)%nat then Ok t'
      else exec_insert t' (firstn (end_i - start_i) (skipn start_i rows))
  end.

Lemma chunk_is_next_rows i :
  Nat.min ((i + 1) * chunksize) (List.length rows) <= i * chunksize ->
  firstn chunksize (skipn (i * chunksize) rows) = [].
Proof.
  intros H.
  assert (L : List.length rows <= i * chunksize) by lia.
  rewrite skipn_all2 by exact L. apply firstn_nil.
Qed.

Lemma chunk_slice i :
  i * chunksize < Nat.min ((i + 1) * chunksize) (List.length rows) ->
  firstn (Nat.min ((i + 1) * chunksize) (List.length rows) - i * chunksize)
    (skipn (i * chunksize) rows)
  = firstn chunksize (skipn (i * chunksize) rows).
Proof.
  intros H.
  destruct (Nat.le_ge_cases ((i + 1) * chunksize) (List.length rows)) as [L|L].
  - rewrite Nat.min_l by exact L. f_equal. lia.
  - rewrite Nat.min_r by exact L.
    rewrite !firstn_all2; [reflexivity | |]; rewrite length_skipn; lia.
Qed.

Lemma chunks_prefix t k :
  fold_left step (seq 0 k) (Ok t) = exec_insert t (firstn (k * chunksize) rows).
Proof.
  induction k as [|k IH]; [reflexivity|].
  rewrite seq_S, fold_left_app, IH. simpl.
  replace (chunksize + k * chunksize) with (k * chunksize + chunksize) by lia.
  rewrite firstn_plus, exec_insert_app.
  unfold step.
  destruct (exec_insert t (firstn (k * chunksize) rows)) as [t'|e];
    [|reflexivity].
  destruct (Nat.leb_spec (Nat.min ((k + 1) * chunksize) (List.length rows))
              (k * chunksize)) as [L|L].
  - now rewrite chunk_is_next_rows.
  - now rewrite chunk_slice.
Qed.

(** The chunk loop inserts the rows in order, whatever the chunk size. *)
Lemma insert_chunks_all t :
  insert_chunks chunksize t rows = exec_insert t rows.
Proof.
  unfold insert_chunks. fold step. rewrite chunks_prefix.
  f_equal. apply firstn_all2.
  pose proof (Nat.mul_succ_div_gt (List.length rows) chunksize).
  lia.
Qed.

End Chunks.

Lemma exec_insert_Ok rows : forall t t',
  exec_insert t rows = Ok t' -> t' = t ++ rows.
Proof.
  induction rows as [|r rows IH]; simpl; intros t t' H.
  - injection H as <-. now rewrite app_nil_r.
  - unfold insert_row in H.
    destruct (description_too_long r); [discriminate|].
    destruct (pk_has_null r); [discriminate|].
    destruct (pk_in t r); [discriminate|].
    rewrite (IH _ _ H), <- app_assoc. reflexivity.
Qed.

Lemma exec_insert_Raise rows : forall t e,
  exec_insert t rows = Raise e -> e = DataError \/ e = IntegrityError.
Proof.
  induction rows as [|r rows IH]; simpl; intros t e H; [discriminate|].
  unfold insert_row in H.
  destruct (description_too_long r); [injection H as <-; now left|].
  destruct (pk_has_null r); [injection H as <-; now right|].
  destruct (pk_in t r); [injection H as <-; now right|].
  eauto.
Qed.





(** ** The stages of a run *)

Lemma say_say p l l' : say (say p l) l' = say p (l ++ l').
Proof.
  unfold say. simpl. now rewrite app_assoc.
Qed.

Lemma all_some_total {A B} (f : A -> option B) l :
  (forall a, In a l -> exists b, f a = Some b) ->
  exists bs, all_some (map f l) = Some bs.
Proof.
  induction l as [|a l IH]; simpl; intros H; [eauto|].
  destruct (H a (or_introl eq_refl)) as [b ->].
  destruct IH as [bs ->]; [auto | simpl; eauto].
Qed.

Lemma all_some_None {A B} (f : A -> option B) l a :
  In a l -> f a = None -> all_some (map f l) = None.
Proof.
  induction l as [|x l IH]; simpl; [contradiction|].
  intros [->|H] E.
  - now rewrite E.
  - destruct (f x); [|reflexivity]. now rewrite IH.
Qed.

Lemma all_some_length {A} (l : list (option A)) : forall v,
  all_some l = Some v -> List.length v = List.length l.
Proof.
  induction l as [|[a|] l IH]; simpl; intros v H; try discriminate.
  - now injection H as <-.
  - destruct (all_some l); [|discriminate].
    injection H as <-. simpl. now rewrite (IH _ eq_refl).
Qed.

Lemma all_some_nth {A} (l : list (option A)) : forall v i d,
  all_some l = Some v -> i < List.length l -> nth i l None = Some (nth i v d).
Proof.
  induction l as [|[a|] l IH]; simpl; intros v i d H L; try discriminate; [lia|].
  destruct (all_some l) eqn:E; [|discriminate].
  injection H as <-. destruct i; simpl; [reflexivity|].
  apply IH; [reflexivity | lia].
Qed.

(** [errors='coerce'] never raises. *)
Lemma to_numeric_coerce_total s : exists s', to_numeric errors_coerce s = Ok s'.
Proof.
  destruct s; simpl; eauto.
  destruct (all_some_total (numeric_of_field errors_coerce) v) as [ns ->].
  - intros [x|] _; simpl; [|eauto]. destruct (parse_number x); eauto.
  - destruct (all_ints ns); eauto.
Qed.

Lemma cell_at_CStr s i x :
  cell_at s i = CStr x ->
  exists v, s = SObject v /\ nth i v None = Some x /\ i < List.length v.
Proof.
  unfold cell_at. intros H.
  assert (L : i < List.length (cells s)).
  { destruct (Nat.lt_ge_cases i (List.length (cells s))) as [L|L]; [exact L|].
    rewrite nth_overflow in H by exact L. discriminate. }
  destruct s as [v|v|v|v|v]; simpl in *; rewrite length_map in L.
  - rewrite (nth_indep _ CNull (CInt 0) ) in H by now rewrite length_map.
    rewrite (map_nth CInt) in H. discriminate.
  - change CNull with (opt_cell CFloat None) in H. rewrite map_nth in H.
    destruct (nth i v None); discriminate.
  - change CNull with (opt_cell CStr None) in H. rewrite map_nth in H.
    exists v. destruct (nth i v None); [|discriminate].
    injection H as ->. auto.
  - change CNull with (opt_cell CTime None) in H. rewrite map_nth in H.
    destruct (nth i v None); discriminate.
  - change CNull with (opt_cell CInt None) in H. rewrite map_nth in H.
    destruct (nth i v None); discriminate.
Qed.

Lemma all_ints_nth ns : forall zs i,
  all_ints ns = Some zs -> i < List.length ns ->
  exists z, nth i ns None = Some (inl z).
Proof.
  induction ns as [|[[z|f]|] ns IH]; simpl; intros zs i H L;
    try discriminate; [lia|].
  destruct (all_ints ns) eqn:E; [|discriminate].
  destruct i; [eauto|]. apply (IH l); [reflexivity | lia].
Qed.

Lemma all_ints_length ns : forall zs,
  all_ints ns = Some zs -> List.length zs = List.length ns.
Proof.
  induction ns as [|[[z|f]|] ns IH]; simpl; intros zs H; try discriminate.
  - now injection H as <-.
  - destruct (all_ints ns); [|discriminate].
    injection H as <-. simpl. now rewrite (IH _ eq_refl).
Qed.

Lemma to_numeric_coerce_length s s' :
  to_numeric errors_coerce s = Ok s' -> series_len s' = series_len s.
Proof.
  unfold series_len. destruct s as [v|v|v|v|v]; simpl;
    try (now intros [= <-]).
  - destruct (all_some _) as [ns|] eqn:E; [|discriminate].
    apply all_some_length in E. rewrite length_map in E.
    destruct (all_ints ns) as [zs|] eqn:I; intros [= <-]; simpl.
    + rewrite !length_map, (all_ints_length _ _ I). exact E.
    + rewrite !length_map. exact E.
  - intros [= <-]. simpl. now rewrite !length_map.
Qed.

Lemma to_numeric_coerce_dtype s s' :
  to_numeric errors_coerce s = Ok s' ->
  dtype s' = float64 \/ dtype s' = int64 \/ dtype s' = Int64.
Proof.
  destruct s as [v|v|v|v|v]; simpl; try (intros [= <-]; simpl; auto).
  destruct (all_some _) as [ns|]; [|discriminate].
  destruct (all_ints ns); intros [= <-]; simpl; auto.
Qed.

(** A field that does not parse becomes a missing value of a float column. *)
Lemma to_numeric_coerce_unparsed s s' i x :
  to_numeric errors_coerce s = Ok s' ->
  cell_at s i = CStr x -> parse_number x = None ->
  cell_at s' i = CNull /\ dtype s' = float64.
Proof.
  intros T C N. destruct (cell_at_CStr _ _ _ C) as [v [-> [Hx L]]].
  simpl in T.
  destruct (all_some _) as [ns|] eqn:E; [|discriminate].
  pose proof (all_some_length _ _ E) as Len. rewrite length_map in Len.
  pose proof (all_some_nth _ _ i None E) as Nth.
  rewrite length_map in Nth. specialize (Nth L).
  rewrite (nth_indep _ None (numeric_of_field errors_coerce None)) in Nth
    by now rewrite length_map.
  rewrite map_nth, Hx in Nth. simpl in Nth. rewrite N in Nth.
  injection Nth as Nth.
  destruct (all_ints ns) as [zs|] eqn:I.
  - destruct (all_ints_nth _ _ i I) as [z Hz]; [lia | congruence].
  - injection T as <-. split; [|reflexivity].
    unfold cell_at. simpl. rewrite map_map.
    change CNull with (opt_cell CFloat (option_map float_of_number None)).
    rewrite (map_nth (fun o => opt_cell CFloat (option_map float_of_number o))).
    now rewrite <- Nth.
Qed.

Lemma to_datetime_Raise s e : to_datetime s = Raise e -> e = ValueError.
Proof.
  unfold to_datetime. destruct (all_some _); [discriminate | congruence].
Qed.

Lemma astype_Int64_Raise s e :
  astype_Int64 s = Raise e -> is_Exception e = true.
Proof.
  destruct s; simpl; try discriminate.
  - destruct (all_some _); [discriminate | now intros [= <-]].
  - destruct (all_some _); [discriminate | now intros [= <-]].
  - now intros [= <-].
Qed.

Lemma convert_col_Raise f col df e :
  (forall s e', f s = Raise e' -> is_Exception e' = true) ->
  convert_col f col df = Raise e -> is_Exception e = true.
Proof.
  intros Hf. unfold convert_col, getitem.
  destruct (has_col df col); [|discriminate].
  destruct (get_col df col) as [s|]; [|now intros [= <-]].
  destruct (f s) eqn:E; [discriminate|].
  intros [= <-]. eauto.
Qed.

Lemma convert_cols_Raise f cols e :
  (forall s e', f s = Raise e' -> is_Exception e' = true) ->
  forall df, convert_cols f cols df = Raise e -> is_Exception e = true.
Proof.
  intros Hf. induction cols as [|c cols IH]; simpl; intros df; [discriminate|].
  destruct (convert_col f c df) eqn:E; [apply IH|].
  intros [= <-]. eapply convert_col_Raise; eauto.
Qed.

(** What the preparation raises is caught by [except Exception]. *)
Lemma normalize_Raise df e : normalize df = Raise e -> is_Exception e = true.
Proof.
  unfold normalize, prepare_dates, coerce_numeric, cast_integers.
  destruct (convert_col to_datetime _ _) eqn:E1.
  - destruct (convert_cols (to_numeric errors_coerce) _ _) eqn:E2.
    + apply convert_cols_Raise. apply astype_Int64_Raise.
    + intros [= <-]. revert E2. apply convert_cols_Raise.
      intros s e' H. destruct (to_numeric_coerce_total s) as [s' E].
      congruence.
  - intros [= <-]. revert E1. apply convert_col_Raise.
    intros s e' H. now rewrite (to_datetime_Raise _ _ H).
Qed.

Lemma read_and_validate_run file p :
  read_and_validate file p =
    match file with
    | None =>
        (Raise (SystemExit 1), say p [MReadingCsv; MProcessingError ParserError])
    | Some csv =>
        match normalize csv with
        | Raise e =>
            (Raise (SystemExit 1),
             say p [MReadingCsv; MReadRows (len csv); MProcessingError e])
        | Ok df =>
            match validate df (say p [MReadingCsv; MReadRows (len csv)]) with
            | (Ok _, p') => (Ok df, p')
            | (Raise e, p') =>
                if is_Exception e
                then (Raise (SystemExit 1), say p' [MProcessingError e])
                else (Raise e, p')
            end
        end
    end.
Proof.
  unfold read_and_validate, read_csv. py_unfold.
  destruct file as [csv|]; simpl.
  - destruct (normalize csv) as [df|e] eqn:E; simpl.
    + rewrite <- app_assoc. simpl.
      destruct (validate df _) as [[[]|e] p']; simpl; [reflexivity|].
      destruct (is_Exception e); reflexivity.
    + rewrite (normalize_Raise _ _ E). simpl.
      repeat rewrite <- app_assoc. reflexivity.
  - repeat rewrite <- app_assoc. reflexivity.
Qed.

(** The validator only prints; what it prints and how it ends depend on the
    frame alone. *)
Lemma validate_effect df :
  exists r l,
    (forall p, validate df p = (r, say p l))
    /\ forallb from_step2 l = true
    /\ (r = Ok tt \/ r = Raise (SystemExit 1) \/ exists k, r = Raise (KeyError k)).
Proof.
  destruct (getitems df pk_cols) as [pk|e] eqn:E.
  - pose proof (fun p => validate_run df pk p E) as H.
    destruct (0 <? null_pk_count df)%nat.
    { eexists _, _. split; [exact H|]. split; [reflexivity | auto]. }
    destruct (0 <? duplicate_count df)%nat.
    { eexists _, _. split; [exact H|]. split; [reflexivity | auto]. }
    destruct (get_col df "description") as [d|].
    + eexists _, _. split; [exact H|]. split; [|auto].
      unfold description_report. destruct (exceeds _ _); reflexivity.
    + eexists _, _. split; [exact H|]. split; [reflexivity | eauto].
  - exists (Raise e), [MValidating].
    split; [intros p; now apply validate_missing_key|].
    split; [reflexivity|].
    right. right. revert E. clear. unfold pk_cols. simpl. unfold getitem.
    repeat (destruct (get_col df _); [|intros [= <-]; eauto]).
    discriminate.
Qed.


Lemma read_and_validate_effect file :
  exists r l,
    (forall p, read_and_validate file p = (r, say p l))
    /\ forallb from_step2 l = true
    /\ (r = Raise (SystemExit 1)
        \/ exists csv df, file = Some csv /\ normalize csv = Ok df /\ r = Ok df).
Proof.
  pose proof (read_and_validate_run file) as H.
  destruct file as [csv|].
  - destruct (normalize csv) as [df|e] eqn:E.
    + destruct (validate_effect df) as [r [l [Hv [Hl Hr]]]].
      destruct Hr as [->|[->|[k ->]]].
      * exists (Ok df), ([MReadingCsv; MReadRows (len csv)] ++ l).
        split; [|split].
        -- intros p. rewrite H, Hv. cbv iota. now rewrite say_say.
        -- simpl. exact Hl.
        -- right. eauto.
      * exists (Raise (SystemExit 1)), ([MReadingCsv; MReadRows (len csv)] ++ l).
        split; [|split; [simpl; exact Hl | now left]].
        intros p. rewrite H, Hv. cbv beta iota delta [is_Exception].
        now rewrite say_say.
      * exists (Raise (SystemExit 1)),
          (([MReadingCsv; MReadRows (len csv)] ++ l)
             ++ [MProcessingError (KeyError k)]).
        split; [|split; [|now left]].
        -- intros p. rewrite H, Hv. cbv beta iota delta [is_Exception].
           now rewrite !say_say.
        -- rewrite forallb_app. simpl. rewrite Hl. reflexivity.
    + eexists _, _. split; [exact H|]. split; [reflexivity | now left].
  - eexists _, _. split; [exact H|]. split; [reflexivity | now left].
Qed.

Lemma connect_run w p :
  engine p = None ->
  connect w p =
    if engine_ok w then
      if db_reachable w then
        (Ok tt,
         {| stdout := stdout p ++ [MConnecting; MConnected]; db := db p;
            engine := Some {| pooled := 1; disposed := false |} |})
      else
        (Raise (SystemExit 1),
         {| stdout := stdout p ++ [MConnecting; MConnectError OperationalError];
            db := db p;
            engine := Some {| pooled := 0; disposed := false |} |})
    else
      (Raise (SystemExit 1),
       {| stdout := stdout p ++ [MConnecting; MConnectError ArgumentError];
          db := db p; engine := None |}).
Proof.
  intros E. unfold connect, create_engine, engine_connect. py_unfold.
  destruct (engine_ok w); simpl.
  - destruct (db_reachable w); simpl; repeat rewrite <- app_assoc; reflexivity.
  - rewrite E. repeat rewrite <- app_assoc. reflexivity.
Qed.

Lemma load_run w df p e0 :
  engine p = Some e0 ->
  load w df p =
    if db_fault w then
      (Raise (SystemExit 1),
       {| stdout := stdout p ++ [MLoading; MLoadError OperationalError; MEngineClosed];
          db := db p; engine := disposed_engine |})
    else
      match exec_insert (db p) (rows_of df) with
      | Ok t =>
          (Ok tt,
           {| stdout := stdout p ++ [MLoading; MLoaded (len df); MEngineClosed];
              db := t; engine := disposed_engine |})
      | Raise e =>
          if is_IntegrityError e then
            (Ok tt,
             {| stdout := stdout p ++ [MLoading; MIntegrityError; MEngineClosed];
                db := db p; engine := disposed_engine |})
          else
            (Raise (SystemExit 1),
             {| stdout := stdout p ++ [MLoading; MLoadError e; MEngineClosed];
                db := db p; engine := disposed_engine |})
      end.
Proof.
  intros E. unfold load, to_sql, close_engine, dispose, disposed_engine.
  py_unfold. simpl.
  destruct (db_fault w); simpl.
  - rewrite E. simpl. repeat rewrite <- app_assoc. reflexivity.
  - rewrite insert_chunks_all by lia.
    destruct (exec_insert (db p) (rows_of df)) as [t|e] eqn:X; simpl.
    + rewrite E. simpl. repeat rewrite <- app_assoc. reflexivity.
    + destruct (exec_insert_Raise _ _ _ X) as [-> | ->]; simpl;
        rewrite E; simpl; repeat rewrite <- app_assoc; reflexivity.
Qed.

Lemma run_unfold w :
  run w =
    if credentials w then
      match latest_csv w with
      | None => (Raise (SystemExit 1), say (start w) [MStarting; MNoCsvFound])
      | Some file =>
          match read_and_validate file (say (start w) [MStarting; MFoundFile]) with
          | (Raise e, p1) => (Raise e, p1)
          | (Ok df, p1) =>
              match connect w p1 with
              | (Raise e, p2) => (Raise e, p2)
              | (Ok _, p2) =>
                  match load w df p2 with
                  | (Raise e, p3) => (Raise e, p3)
                  | (Ok _, p3) => (Ok tt, say p3 [MFinished])
                  end
              end
          end
      end
    else (Raise (SystemExit 1), say (start w) [MNoCredentials]).
Proof.
  unfold run, script. py_unfold.
  destruct (credentials w); simpl; [|reflexivity].
  destruct (latest_csv w) as [file|]; simpl; [|reflexivity].
  destruct (read_and_validate file _) as [[df|e] p1]; [|reflexivity].
  destruct (connect w p1) as [[[]|e] p2]; [|reflexivity].
  destruct (load w df p2) as [[[]|e] p3]; reflexivity.
Qed.


Lemma with_table_same w : with_table w (table w) = w.
Proof.
  destruct w. reflexivity.
Qed.

(** How a run goes, over any content of the table: it stops before an
    engine exists, or at the connection test, or reaches step 4 with a
    frame that passed the validator. *)
Lemma run_cases w :
  exists l0,
    forallb before_step3 l0 = true
    /\ ((forall t, run (with_table w t) =
           (Raise (SystemExit 1), {| stdout := l0; db := t; engine := None |}))
        \/ (forall t, run (with_table w t) =
              (Raise (SystemExit 1),
               {| stdout := l0 ++ [MConnecting; MConnectError ArgumentError];
                  db := t; engine := None |}))
        \/ (forall t, run (with_table w t) =
              (Raise (SystemExit 1),
               {| stdout := l0 ++ [MConnecting; MConnectError OperationalError];
                  db := t;
                  engine := Some {| pooled := 0; disposed := false |} |}))
        \/ (exists csv df,
              latest_csv w = Some (Some csv) /\ normalize csv = Ok df
              /\ (forall p, fst (validate df p) = Ok tt)
              /\ forall t, run (with_table w t) =
                   finish (load w df (connected l0 t)))).
Proof.
  pose proof (fun t => run_unfold (with_table w t)) as H. simpl in H.
  destruct (credentials w).
  2:{ exists [MNoCredentials]. split; [reflexivity|]. left. exact H. }
  destruct (latest_csv w) as [file|].
  2:{ exists [MStarting; MNoCsvFound]. split; [reflexivity|]. left. exact H. }
  destruct (read_and_validate_effect file) as [r [l [Hr [Hl Hc]]]].
  assert (Hl' : forallb before_step3 ([MStarting; MFoundFile] ++ l) = true).
  { simpl. revert Hl. clear. induction l as [|m l IH]; simpl; [auto|].
    intros E. apply andb_true_iff in E. destruct E as [E1 E2].
    rewrite (IH E2), andb_true_r. destruct m; simpl in *; congruence. }
  exists ([MStarting; MFoundFile] ++ l). split; [exact Hl'|].
  destruct Hc as [->|[csv [df [-> [Hn ->]]]]].
  - left. intros t. rewrite H, Hr. reflexivity.
  - right.
    assert (Hp : forall t,
      run (with_table w t) =
        match connect (with_table w t)
                {| stdout := [MStarting; MFoundFile] ++ l; db := t;
                   engine := None |} with
        | (Ok _, p2) => finish (load (with_table w t) df p2)
        | (Raise e, p2) => (Raise e, p2)
        end).
    { intros t. rewrite H, Hr. unfold say, start, finish. simpl.
      destruct (connect _ _) as [[[]|e] p2]; [|reflexivity].
      destruct (load _ _ _) as [[[]|e] p3]; reflexivity. }
    assert (Hc : forall t p, connect (with_table w t) p = connect w p)
      by reflexivity.
    assert (Hload : forall t p, load (with_table w t) df p = load w df p)
      by reflexivity.
    destruct (engine_ok w) eqn:E1; [destruct (db_reachable w) eqn:E2|].
    + right. right. exists csv, df. repeat split; auto.
      * intros p. specialize (Hr p). rewrite read_and_validate_run, Hn in Hr.
        destruct (validate df _) as [[[]|e] p'] eqn:V.
        -- destruct (validate_effect df) as [r' [l' [Hv _]]].
           rewrite Hv in V. rewrite Hv. simpl. congruence.
        -- destruct (is_Exception e); discriminate.
      * intros t. rewrite Hp, Hc, connect_run by reflexivity.
        rewrite E1, E2, Hload. reflexivity.
    + right. left. intros t. rewrite Hp, Hc, connect_run by reflexivity.
      rewrite E1, E2. reflexivity.
    + left. intros t. rewrite Hp, Hc, connect_run by reflexivity.
      rewrite E1. reflexivity.
Qed.


Lemma finish_load_run w df l0 t :
  finish (load w df (connected l0 t)) =
    if db_fault w then
      (Raise (SystemExit 1),
       {| stdout := l0 ++ [MConnecting; MConnected; MLoading;
                           MLoadError OperationalError; MEngineClosed];
          db := t; engine := disposed_engine |})
    else
      match exec_insert t (rows_of df) with
      | Ok t' =>
          (Ok tt,
           {| stdout := l0 ++ [MConnecting; MConnected; MLoading;
                               MLoaded (len df); MEngineClosed; MFinished];
              db := t'; engine := disposed_engine |})
      | Raise e =>
          if is_IntegrityError e then
            (Ok tt,
             {| stdout := l0 ++ [MConnecting; MConnected; MLoading;
                                 MIntegrityError; MEngineClosed; MFinished];
                db := t; engine := disposed_engine |})
          else
            (Raise (SystemExit 1),
             {| stdout := l0 ++ [MConnecting; MConnected; MLoading;
                                 MLoadError e; MEngineClosed];
                db := t; engine := disposed_engine |})
      end.
Proof.
  rewrite (load_run w df (connected l0 t) _ eq_refl). unfold connected. simpl.
  destruct (db_fault w); simpl.
  - now rewrite <- app_assoc.
  - destruct (exec_insert t (rows_of df)) as [t'|e]; simpl.
    + unfold say. simpl. now rewrite <- !app_assoc.
    + destruct (is_IntegrityError e); simpl.
      * unfold say. simpl. now rewrite <- !app_assoc.
      * now rewrite <- app_assoc.
Qed.

Lemma before_step3_In l m :
  forallb before_step3 l = true -> In m l -> before_step3 m = true.
Proof.
  intros H. now apply forallb_forall.
Qed.

Lemma not_yet_tested l :
  forallb before_step3 l = true -> connection_tested l = false.
Proof.
  unfold connection_tested. induction l as [|m l IH]; simpl; [reflexivity|].
  intros H. apply andb_true_iff in H. destruct H as [H1 H2].
  rewrite (IH H2), orb_false_r. destruct m; simpl in *; congruence.
Qed.

Lemma connection_tested_app l l' :
  connection_tested (l ++ l') = connection_tested l || connection_tested l'.
Proof.
  apply existsb_app.
Qed.

Lemma rows_of_length df : List.length (rows_of df) = len df.
Proof.
  unfold rows_of. now rewrite length_map, length_seq.
Qed.

(** The engine at the end of a run: if one was created it holds no open
    connection, and it has been disposed exactly when the connection test
    had succeeded, that is on a successful load, on an integrity error and
    on any other error of the load. *)
Theorem engine_disposed_after_connection (w : World) :
  match engine (snd (run w)) with
  | Some e =>
      pooled e = 0
      /\ disposed e = connection_tested (stdout (snd (run w)))
  | None => connection_tested (stdout (snd (run w))) = false
  end.
Proof.
  destruct (run_cases w) as [l0 [Hl H]].
  pose proof (not_yet_tested _ Hl) as N.
  destruct H as [H|[H|[H|[csv [df [_ [_ [_ H]]]]]]]];
    specialize (H (table w)); rewrite with_table_same in H; rewrite H.
  - simpl. exact N.
  - simpl. rewrite connection_tested_app, N. reflexivity.
  - simpl. rewrite connection_tested_app, N. auto.
  - rewrite finish_load_run.
    destruct (db_fault w); simpl.
    + rewrite connection_tested_app, N. auto.
    + destruct (exec_insert _ _) as [t'|e]; simpl.
      * rewrite connection_tested_app, N. auto.
      * destruct (is_IntegrityError e); simpl;
          rewrite connection_tested_app, N; auto.
Qed.






(** ** Dates and the description column *)

Lemma getitems_KeyError df cs e :
  getitems df cs = Raise e -> exists k, e = KeyError k.
Proof.
  induction cs as [|c cs IH]; simpl; [discriminate|].
  unfold getitem. destruct (get_col df c).
  - destruct (getitems df cs); [discriminate|].
    intros [= <-]. now apply IH.
  - intros [= <-]. eauto.
Qed.




Lemma no_description_no_pass df p :
  get_col df "description" = None ->
  exists e l,
    validate df p = (Raise e, say p l)
    /\ (e = SystemExit 1 /\ ~ In MCheck2Passed l
        \/ e = KeyError "description"
        \/ (exists k, e = KeyError k) /\ ~ In MCheck2Passed l)
    /\ ~ In MLoading l.
Proof.
  intros D.
  assert (X : forall m : Msg, ~ In m []) by (intros m []).
  destruct (getitems df pk_cols) as [pk|e] eqn:E.
  - rewrite (validate_run _ _ p E), D.
    destruct (0 <? null_pk_count df)%nat;
      [|destruct (0 <? duplicate_count df)%nat];
      eexists _, _; (split; [reflexivity|]); split;
      try (left; split; [reflexivity|]);
      try (right; left; reflexivity);
      simpl; intros I;
      repeat (destruct I as [I|I]; try discriminate I); exact I.
  - rewrite (validate_missing_key _ _ p E).
    eexists _, _. split; [reflexivity|]. split.
    + right. right. split; [eapply getitems_KeyError; eauto|].
      simpl. intros [I|[]]. discriminate.
    + simpl. intros [I|[]]. discriminate.
Qed.

(** C10: when the file has no description column (the names are compared
    after lower-casing, as the script does), the run stops with exit status
    1 before any engine is created and before any write to the table; when
    both key checks have passed, what stops it is the KeyError of the
    description check. *)
Theorem missing_description_stops_run (w : World) (csv : DataFrame) :
  latest_csv w = Some (Some csv) ->
  ~ In "description" (map lower (columns csv)) ->
  fst (run w) = Raise (SystemExit 1)
  /\ db (snd (run w)) = table w
  /\ engine (snd (run w)) = None
  /\ ~ In MLoading (stdout (snd (run w)))
  /\ (In MCheck2Passed (stdout (snd (run w))) ->
      In (MProcessingError (KeyError "description")) (stdout (snd (run w)))).
Proof.
  intros Hf Hd. rewrite run_unfold, Hf, read_and_validate_run.
  destruct (credentials w).
  2:{ simpl. repeat split; auto; intros I;
      repeat (destruct I as [I|I]; try discriminate I); contradiction. }
  destruct (normalize csv) as [df|e] eqn:N.
  2:{ simpl. repeat split; auto; intros I;
      repeat (destruct I as [I|I]; try discriminate I); contradiction. }
  assert (D : get_col df "description" = None).
  { apply get_col_None. now rewrite (normalize_columns _ _ N). }
  destruct (no_description_no_pass df
              (say (say (start w) [MStarting; MFoundFile])
                 [MReadingCsv; MReadRows (len csv)]) D)
    as [e [l [-> [He Hl]]]].
  destruct He as [[-> H2]|[->|[[k ->] H2]]];
    cbv beta iota delta [is_Exception fst snd];
    unfold say, start; cbn [stdout db engine];
    repeat split; try reflexivity; intros I;
    repeat rewrite in_app_iff in *; simpl in *;
    intuition (try discriminate).
Qed.


(** ** The numeric columns *)

Lemma convert_col_present f c df s s' :
  get_col df c = Some s -> f s = Ok s' ->
  convert_col f c df = Ok (set_col df c s').
Proof.
  intros G F. unfold convert_col, getitem.
  assert (C : has_col df c = true) by (apply has_col_get; eauto).
  now rewrite C, G, F.
Qed.

Lemma convert_col_other f c0 c df df' :
  c0 <> c -> convert_col f c0 df = Ok df' -> get_col df' c = get_col df c.
Proof.
  intros N. unfold convert_col, getitem.
  destruct (has_col df c0); [|now intros [= <-]].
  destruct (get_col df c0); [|discriminate].
  destruct (f s); [|discriminate].
  intros [= <-]. now apply get_set_other.
Qed.

Lemma convert_cols_other f c cols : forall df df',
  ~ In c cols -> convert_cols f cols df = Ok df' -> get_col df' c = get_col df c.
Proof.
  induction cols as [|c0 cols IH]; simpl; intros df df' N H.
  - now injection H as <-.
  - destruct (convert_col f c0 df) as [df1|] eqn:E; [|discriminate].
    rewrite (IH _ _ (fun I => N (or_intror I)) H).
    eapply convert_col_other; [|exact E].
    intros ->. apply N. now left.
Qed.

Lemma convert_col_total f c df :
  (forall s, exists s', f s = Ok s') -> exists df', convert_col f c df = Ok df'.
Proof.
  intros T. unfold convert_col, getitem.
  destruct (has_col df c) eqn:C; [|eauto].
  apply has_col_get in C. destruct C as [s ->].
  destruct (T s) as [s' ->]. eauto.
Qed.

Lemma convert_cols_total f cols :
  (forall s, exists s', f s = Ok s') ->
  forall df, exists df', convert_cols f cols df = Ok df'.
Proof.
  intros T. induction cols as [|c cols IH]; simpl; intros df; [eauto|].
  destruct (convert_col_total f c df T) as [df1 ->]. apply IH.
Qed.

Lemma convert_cols_at f c cols :
  NoDup cols -> In c cols ->
  forall df df' s,
    get_col df c = Some s -> convert_cols f cols df = Ok df' ->
    exists s', f s = Ok s' /\ get_col df' c = Some s'.
Proof.
  induction 1 as [|c0 cols N ND IH]; simpl; [contradiction|].
  intros [->|I] df df' s G H.
  - destruct (f s) as [s'|e] eqn:F.
    + rewrite (convert_col_present _ _ _ _ _ G F) in H.
      exists s'. split; [reflexivity|].
      rewrite (convert_cols_other _ _ _ _ _ N H).
      eapply get_set_same; eauto.
    + unfold convert_col, getitem in H.
      assert (C : has_col df c = true) by (apply has_col_get; eauto).
      rewrite C, G, F in H. discriminate.
  - destruct (convert_col f c0 df) as [df1|] eqn:E; [|discriminate].
    apply (IH I df1 df' s); [|exact H].
    rewrite <- G. eapply convert_col_other; [|exact E].
    intros ->. contradiction.
Qed.

Lemma numeric_cols_NoDup : NoDup numeric_cols.
Proof.
  unfold numeric_cols.
  repeat (constructor; [simpl; intuition discriminate|]).
  constructor.
Qed.

(** What [errors='coerce'] makes of the fields of a text column. *)
Lemma all_some_coerce v :
  all_some (map (numeric_of_field errors_coerce) v) =
    Some (map (fun o => match o with
                        | Some x => parse_number x
                        | None => None
                        end) v).
Proof.
  induction v as [|[x|] v IH]; simpl; [reflexivity| |]; rewrite IH; simpl.
  - destruct (parse_number x); reflexivity.
  - reflexivity.
Qed.

Lemma all_ints_map ns : forall zs,
  all_ints ns = Some zs -> ns = map (fun z => Some (inl z)) zs.
Proof.
  induction ns as [|[[z|f]|] ns IH]; simpl; intros zs H; try discriminate.
  - now injection H as <-.
  - destruct (all_ints ns) as [l|]; [|discriminate].
    injection H as <-. simpl. now rewrite <- (IH l eq_refl).
Qed.

Lemma all_ints_None ns :
  all_ints ns = None ->
  exists o, In o ns /\ forall z, o <> Some (inl z).
Proof.
  induction ns as [|[[z|f]|] ns IH]; simpl; intros H; try discriminate.
  - destruct (all_ints ns) as [l|]; [discriminate|].
    destruct (IH eq_refl) as [o [I N]]. eauto.
  - exists (Some (inr f)). split; [now left | discriminate].
  - exists None. split; [now left | discriminate].
Qed.

(** [pd.to_numeric(errors='coerce')] on a text column: the dtype of the
    result and its value at every position. *)
Lemma to_numeric_coerce_object v s' :
  to_numeric errors_coerce (SObject v) = Ok s' ->
  (dtype s' = int64 \/ dtype s' = float64)
  /\ (dtype s' = int64 <->
      forall o, In o v ->
                exists x z, o = Some x /\ parse_number x = Some (inl z))
  /\ forall i, i < List.length v ->
       cell_at s' i =
         match nth i v None with
         | None => CNull
         | Some x =>
             match parse_number x with
             | None => CNull
             | Some (inl z) =>
                 match dtype s' with
                 | int64 => CInt z
                 | _ => CFloat (float_of_int z)
                 end
             | Some (inr f) => CFloat f
             end
         end.
Proof.
  simpl. rewrite all_some_coerce.
  set (parsed := fun o : option string =>
                   match o with Some x => parse_number x | None => None end).
  destruct (all_ints (map parsed v)) as [zs|] eqn:I; intros [= <-]; simpl.
  - apply all_ints_map in I. split; [now left|]. split.
    + split; [|reflexivity]. intros _ o Io.
      apply (in_map parsed) in Io. rewrite I in Io.
      apply in_map_iff in Io. destruct Io as [z [E _]].
      destruct o as [x|]; simpl in E; [eauto | discriminate].
    + intros i L.
      assert (Lz : List.length zs = List.length v).
      { rewrite <- (length_map parsed v), I. now rewrite length_map. }
      assert (N : parsed (nth i v None) = Some (inl (nth i zs 0%Z))).
      { rewrite <- (map_nth parsed), I.
        rewrite (nth_indep _ _ (Some (inl 0%Z))) by (rewrite length_map; lia).
        apply (map_nth (fun z => Some (inl z))). }
      unfold cell_at. simpl.
      rewrite (nth_indep _ CNull (CInt 0)) by (rewrite length_map; lia).
      rewrite (map_nth CInt).
      destruct (nth i v None) as [x|]; simpl in N; [|discriminate].
      rewrite N. reflexivity.
  - split; [now right|]. split.
    + split; [discriminate|]. intros H. exfalso.
      destruct (all_ints_None _ I) as [o [Io No]].
      apply in_map_iff in Io. destruct Io as [o' [<- Io']].
      destruct (H o' Io') as [x [z [-> E]]]. simpl in No.
      apply (No z). exact E.
    + intros i L. unfold cell_at. simpl. rewrite !map_map.
      change CNull with
        (opt_cell CFloat (option_map float_of_number (parsed None))) at 1.
      rewrite (map_nth (fun o => opt_cell CFloat
                                   (option_map float_of_number (parsed o)))).
      destruct (nth i v None) as [x|]; simpl; [|reflexivity].
      destruct (parse_number x) as [[z|f]|]; reflexivity.
Qed.

(** C6, amended: in a frame whose labels are distinct, for every column of
    [numeric_cols] that the frame has, the coercion never raises and leaves
    a numeric column of the same length. A numeric column is left as it
    is. In a text column a value that parses as a number becomes that
    number and a value that does not parse, or is missing, becomes null;
    the column comes out as int64 when every value parses as an integer and
    as float64 otherwise, the integers then being the floats of the same
    value. *)
Theorem numeric_columns_coerced (df : DataFrame) (c : string) (s : Series) :
  NoDup (columns df) ->
  In c numeric_cols ->
  get_col df c = Some s ->
  exists df' s',
    coerce_numeric df = Ok df'
    /\ columns df' = columns df
    /\ get_col df' c = Some s'
    /\ to_numeric errors_coerce s = Ok s'
    /\ (dtype s' = float64 \/ dtype s' = int64 \/ dtype s' = Int64)
    /\ series_len s' = series_len s
    /\ (dtype s = int64 \/ dtype s = float64 \/ dtype s = Int64 -> s' = s)
    /\ (forall v, s = SObject v ->
          (dtype s' = int64 <->
           forall o, In o v ->
                     exists x z, o = Some x /\ parse_number x = Some (inl z))
          /\ forall i, i < List.length v ->
               cell_at s' i =
                 match nth i v None with
                 | None => CNull
                 | Some x =>
                     match parse_number x with
                     | None => CNull
                     | Some (inl z) =>
                         match dtype s' with
                         | int64 => CInt z
                         | _ => CFloat (float_of_int z)
                         end
                     | Some (inr f) => CFloat f
                     end
                 end)
    /\ forall i x,
         cell_at s i = CStr x -> parse_number x = None ->
         cell_at s' i = CNull /\ dtype s' = float64.
Proof.
  intros _ I G. unfold coerce_numeric.
  destruct (convert_cols_total (to_numeric errors_coerce) numeric_cols
              to_numeric_coerce_total df) as [df' H].
  destruct (convert_cols_at _ _ _ numeric_cols_NoDup I _ _ _ G H)
    as [s' [T G']].
  exists df', s'. split; [exact H|].
  split; [eapply convert_cols_columns; eauto|].
  split; [exact G'|]. split; [exact T|].
  split; [eapply to_numeric_coerce_dtype; eauto|].
  split; [eapply to_numeric_coerce_length; eauto|].
  split.
  { intros D. destruct s; simpl in D, T;
      try (injection T as <-; reflexivity);
      destruct D as [D|[D|D]]; discriminate. }
  split.
  { intros v ->. destruct (to_numeric_coerce_object _ _ T) as [_ [D C]].
    split; assumption. }
  intros i x. now apply to_numeric_coerce_unparsed.
Qed.


(** ** The columns that reach the table *)

Lemma columns_select df cs c :
  In c (columns (select df cs)) <-> In c cs /\ In c (columns df).
Proof.
  unfold columns, select. rewrite in_map_iff. split.
  - intros [[c' s'] [E I]]. simpl in E. subst c'.
    apply in_flat_map in I. destruct I as [c0 [I0 I]].
    apply filter_In in I. destruct I as [I E]. simpl in E.
    apply String.eqb_eq in E. subst c0. split; [exact I0|].
    apply in_map_iff. exists (c, s'). auto.
  - intros [I0 I]. apply in_map_iff in I. destruct I as [[c' s'] [E I]].
    simpl in E. subst c'. exists (c, s'). split; [reflexivity|].
    apply in_flat_map. exists c. split; [exact I0|].
    apply filter_In. split; [exact I | apply String.eqb_refl].
Qed.

Lemma existing_columns df cs c :
  In c (filter (fun col => has_col df col) cs) <-> In c cs /\ In c (columns df).
Proof.
  rewrite filter_In. unfold has_col. now rewrite mem_In.
Qed.

(** The names of the canonical schema are written in lower case. *)
Lemma COLUMNS_TO_KEEP_lower c : In c COLUMNS_TO_KEEP -> lower c = c.
Proof.
  assert (H : forallb (fun c => String.eqb (lower c) c) COLUMNS_TO_KEEP = true)
    by (vm_compute; reflexivity).
  intros I. apply String.eqb_eq. revert c I. now apply forallb_forall.
Qed.

Lemma map_fst_row_at df i : map fst (row_at df i) = columns df.
Proof.
  unfold row_at, columns. rewrite map_map. reflexivity.
Qed.

(** The rows a run adds to the table carry the columns of the file, with
    their names in lower case: step 2 selects no column. *)
Lemma loaded_rows_columns w csv r :
  latest_csv w = Some (Some csv) ->
  In r (db (snd (run w))) -> ~ In r (table w) ->
  map fst r = map lower (columns csv).
Proof.
  intros Hf I N.
  destruct (run_cases w) as [l0 [_ H]].
  destruct H as [H|[H|[H|[csv' [df [Hf' [Hn [_ H]]]]]]]];
    specialize (H (table w)); rewrite with_table_same in H; rewrite H in I;
    try contradiction.
  rewrite Hf in Hf'. injection Hf' as <-.
  rewrite finish_load_run in I.
  destruct (db_fault w); [contradiction|].
  destruct (exec_insert (table w) (rows_of df)) as [t'|e] eqn:X.
  - apply exec_insert_Ok in X. subst t'. simpl in I.
    apply in_app_or in I. destruct I as [I|I]; [contradiction|].
    unfold rows_of in I. apply in_map_iff in I. destruct I as [i [<- _]].
    rewrite map_fst_row_at. now apply normalize_columns.
  - destruct (is_IntegrityError e); contradiction.
Qed.

Lemma Some_inj {A} (a b : A) : Some a = Some b -> a = b.
Proof.
  now intros [= ->].
Qed.

Lemma cleaned_columns df keep c :
  In c (columns (snd (clean_and_select_columns df keep))) <->
  In c keep /\ In c (columns df).
Proof.
  unfold clean_and_select_columns, snd.
  rewrite columns_select, existing_columns. tauto.
Qed.

Lemma cleaned_log df keep cs :
  In (warning_missing_columns cs) (fst (clean_and_select_columns df keep)) <->
  cs = filter (fun c => negb (has_col df c)) keep /\ cs <> [].
Proof.
  unfold clean_and_select_columns, fst.
  destruct (filter (fun c => negb (has_col df c)) keep) as [|c0 missing];
    simpl; split.
  - intros [I|[]]. discriminate.
  - intros [-> N]. congruence.
  - intros [I|[I|[]]]; [discriminate|].
    injection I as <-. split; [reflexivity | discriminate].
  - intros [-> _]. right. now left.
Qed.

Lemma find_player_id_log src cs :
  ~ In (warning_missing_columns cs) (fst (find_player_id src)).
Proof.
  unfold find_player_id. destruct (lookup src) as [[|i [|j l]]|]; simpl;
    intros I; repeat (destruct I as [I|I]; try discriminate I); contradiction.
Qed.

Lemma get_statcast_data_log src cs :
  ~ In (warning_missing_columns cs) (fst (get_statcast_data src)).
Proof.
  unfold get_statcast_data.
  destruct (if String.eqb (player_type src) "pitcher"
            then pitcher_data src else batter_data src) as [[d|]|];
    [destruct (empty d)| |]; simpl;
    intros I; repeat (destruct I as [I|I]; try discriminate I); contradiction.
Qed.

Lemma fetch_success src player_id ids data :
  lookup src = Some (player_id :: ids) ->
  snd (get_statcast_data src) = Some data ->
  makedirs_ok src = true -> to_csv_ok src = true ->
  fetch src =
    {| logged :=
         fst (find_player_id src) ++ fst (get_statcast_data src) ++
         fst (clean_and_select_columns data COLUMNS_TO_KEEP) ++
         [info_directory; info_saved; info_finished];
       snapshot := Some (snd (clean_and_select_columns data COLUMNS_TO_KEEP));
       fetch_status := 0 |}.
Proof.
  intros L D M C. unfold fetch.
  assert (F : snd (find_player_id src) = Some player_id)
    by (unfold find_player_id; rewrite L; destruct ids; reflexivity).
  destruct (find_player_id src) as [log1 id]. unfold snd in F. subst id.
  destruct (get_statcast_data src) as [log2 d]. unfold snd in D. subst d.
  destruct (clean_and_select_columns data COLUMNS_TO_KEEP) as [log3 cleaned].
  rewrite M, C. reflexivity.
Qed.

(** C9, amended: the snapshot the fetch script writes holds the columns of the
    canonical schema that the source has, and no other; the columns of the
    schema that the source lacks are listed in one warning and the script
    still ends with status 0; nothing is logged about the other columns of
    the source. The load script selects no column: the rows it adds to the
    table carry the columns of the snapshot. *)
Theorem loaded_columns_are_schema_intersection
    (src : Source) (player_id : Z) (ids : list Z) (data : DataFrame)
    (w : World) (csv : DataFrame) :
  lookup src = Some (player_id :: ids) ->
  snd (get_statcast_data src) = Some data ->
  makedirs_ok src = true ->
  to_csv_ok src = true ->
  latest_csv w = Some (Some csv) ->
  Some (columns csv) = option_map columns (snapshot (fetch src)) ->
  fetch_status (fetch src) = 0%Z
  /\ (forall c, In c (columns csv) <->
                In c COLUMNS_TO_KEEP /\ In c (columns data))
  /\ (forall cs, In (warning_missing_columns cs) (logged (fetch src)) <->
                 cs = filter (fun c => negb (has_col data c)) COLUMNS_TO_KEEP
                 /\ cs <> [])
  /\ (forall r, In r (db (snd (run w))) -> ~ In r (table w) ->
                forall c, In c (map fst r) <->
                          In c COLUMNS_TO_KEEP /\ In c (columns data)).
Proof.
  intros L D M C Hf Hs.
  rewrite (fetch_success _ _ _ _ L D M C) in *.
  unfold snapshot, option_map in Hs. apply Some_inj in Hs.
  assert (Hc : forall c, In c (columns csv) <->
                         In c COLUMNS_TO_KEEP /\ In c (columns data))
    by (intros c; rewrite Hs; apply cleaned_columns).
  split; [reflexivity|]. split; [exact Hc|]. split.
  - intros cs. unfold logged. rewrite !in_app_iff, cleaned_log.
    pose proof (find_player_id_log src cs) as F.
    pose proof (get_statcast_data_log src cs) as G.
    assert (T : ~ In (warning_missing_columns cs)
                  [info_directory; info_saved; info_finished]).
    { clear. simpl. intros I.
      repeat (destruct I as [I|I]; try discriminate I). contradiction. }
    tauto.
  - intros r I N c.
    rewrite (loaded_rows_columns w csv r Hf I N), <- Hc.
    rewrite in_map_iff. split.
    + intros [c' [<- I']]. pose proof I' as K. apply Hc in K.
      destruct K as [K _]. now rewrite (COLUMNS_TO_KEEP_lower _ K).
    + intros I'. exists c. split; [|exact I'].
      apply Hc in I'. destruct I' as [K _]. now apply COLUMNS_TO_KEEP_lower.
Qed.

(** ** Boolean readings of the hypotheses *)

Lemma has_pk_cols_check (df : DataFrame) :
  forallb (fun c => mem c (columns df)) pk_cols = true ->
  forall c, In c pk_cols -> In c (columns df).
Proof.
  intros H c I. apply mem_In. revert c I. now apply forallb_forall.
Qed.

Lemma null_row_check (df : DataFrame) :
  existsb null_in_pk (rows_of df) = true ->
  exists r, In r (rows_of df) /\ null_in_pk r = true.
Proof.
  intros H. now apply existsb_exists.
Qed.

Lemma no_null_row_check (df : DataFrame) :
  existsb null_in_pk (rows_of df) = false ->
  forall r, In r (rows_of df) -> null_in_pk r = false.
Proof.
  intros H r I. destruct (null_in_pk r) eqn:E; [|reflexivity].
  rewrite <- H. symmetry. apply existsb_exists. eauto.
Qed.


Lemma distinct_keys_check (df : DataFrame) :
  existsb (shares_pk df) (seq 0 (len df)) = false ->
  forall i j, i < len df -> j < len df -> i <> j ->
              pk_of (row_at df i) <> pk_of (row_at df j).
Proof.
  intros H i j Hi Hj N E.
  assert (X : existsb (shares_pk df) (seq 0 (len df)) = true); [|congruence].
  apply existsb_exists. exists j. split; [apply in_seq; lia|].
  apply shares_pk_true. exists i. auto.
Qed.

(** ** File discovery *)

Lemma newest_from_spec rest : forall best t found,
  entry_mtime best = Mtime t ->
  newest_from best t rest = inl found ->
  exists t_found,
    entry_mtime found = Mtime t_found
    /\ (found = best \/ In found rest)
    /\ (t <= t_found)%Z
    /\ forall e, In e rest ->
         exists t', entry_mtime e = Mtime t' /\ (t' <= t_found)%Z.
Proof.
  induction rest as [|e rest IH]; simpl; intros best t found Hb H.
  - injection H as <-. exists t. repeat split; auto; try lia; intros e [].
  - destruct (entry_mtime e) as [t'| |] eqn:E; try discriminate.
    destruct (Z.ltb_spec t t') as [L|L].
    + destruct (IH _ _ _ E H) as [tf [Hf [Hin [Hle Hall]]]].
      exists tf. split; [exact Hf|]. split; [|split; [lia|]].
      * destruct Hin as [->|Hin]; auto.
      * intros e0 [<-|I]; [exists t'; auto | auto].
    + destruct (IH _ _ _ Hb H) as [tf [Hf [Hin [Hle Hall]]]].
      exists tf. split; [exact Hf|]. split; [|split; [lia|]].
      * destruct Hin as [->|Hin]; auto.
      * intros e0 [<-|I]; [exists t'; split; [auto | lia] | auto].
Qed.

Lemma newest_from_fails rest : forall best t failure,
  newest_from best t rest = inr failure ->
  exists e, In e rest /\ entry_mtime e = failure /\ forall t', failure <> Mtime t'.
Proof.
  induction rest as [|e rest IH]; simpl; intros best t failure H;
    [discriminate|].
  destruct (entry_mtime e) as [t'| |] eqn:E.
  - destruct (t <? t')%Z;
      destruct (IH _ _ _ H) as [e0 [I [M N]]]; exists e0; auto.
  - injection H as <-. exists e. repeat split; auto. discriminate.
  - injection H as <-. exists e. repeat split; auto. discriminate.
Qed.

Lemma newest_from_total rest : forall best t,
  (forall e, In e rest -> exists t', entry_mtime e = Mtime t') ->
  exists found, newest_from best t rest = inl found.
Proof.
  induction rest as [|e rest IH]; simpl; intros best t H; [eauto|].
  destruct (H e (or_introl eq_refl)) as [t' ->].
  destruct (t <? t')%Z; apply IH; auto.
Qed.

(** X1: a path returned by [find_latest_csv] names a file of the listing
    whose lower-cased name ends in ".csv" and starts with the lower-cased
    prefix (any name when the prefix is empty); nothing is printed, and no
    file that passes the same filter is newer. *)
Theorem find_latest_csv_newest_candidate (directory : string)
    (listing : Listing) (prefix : string) (log : list FinderMsg) (path : string) :
  find_latest_csv directory listing prefix = (log, Some path) ->
  exists entries e t,
    listing = Listed entries
    /\ log = []
    /\ In e entries
    /\ path = path_join directory (entry_name e)
    /\ endswith (lower (entry_name e)) ".csv" = true
    /\ (prefix = "" \/ startswith (lower (entry_name e)) (lower prefix) = true)
    /\ entry_mtime e = Mtime t
    /\ forall e', In e' entries ->
         is_candidate prefix (entry_name e') = true ->
         exists t', entry_mtime e' = Mtime t' /\ (t' <= t)%Z.
Proof.
  unfold find_latest_csv. destruct listing as [entries| |]; try discriminate.
  destruct (filter _ entries) as [|e0 rest] eqn:F; [discriminate|].
  destruct (entry_mtime e0) as [t0| |] eqn:E0; try discriminate.
  destruct (newest_from e0 t0 rest) as [found|[]] eqn:N; try discriminate.
  intros [= <- <-].
  destruct (newest_from_spec _ _ _ _ E0 N) as [t [Hf [Hin [Hle Hall]]]].
  assert (I : In found (filter (fun e => is_candidate prefix (entry_name e))
                          entries)).
  { rewrite F. destruct Hin as [->|Hin]; [now left | now right]. }
  apply filter_In in I. destruct I as [I C].
  pose proof C as C'. unfold is_candidate in C'.
  apply andb_true_iff in C'. destruct C' as [C1 C2].
  exists entries, found, t. repeat split; auto.
  - apply orb_true_iff in C2. destruct C2 as [C2|C2]; auto.
    left. now apply String.eqb_eq.
  - intros e' I' C0.
    assert (J : In e' (e0 :: rest)) by (rewrite <- F; apply filter_In; auto).
    destruct J as [<-|J]; [exists t0; auto | auto].
Qed.

(** X2: [find_latest_csv] returns no path exactly when the directory cannot
    be listed, or no file passes the filter, or the modification time of a
    file that passes it cannot be read. *)
Theorem find_latest_csv_none (directory : string) (listing : Listing)
    (prefix : string) :
  snd (find_latest_csv directory listing prefix) = None <->
  match listing with
  | Listed entries =>
      (forall e, In e entries -> is_candidate prefix (entry_name e) = false)
      \/ exists e, In e entries
                   /\ is_candidate prefix (entry_name e) = true
                   /\ forall t, entry_mtime e <> Mtime t
  | _ => True
  end.
Proof.
  unfold find_latest_csv. destruct listing as [entries| |]; simpl; try tauto.
  destruct (filter _ entries) as [|e0 rest] eqn:F.
  - split; [intros _|reflexivity]. left. intros e I.
    destruct (is_candidate prefix (entry_name e)) eqn:C; [|reflexivity].
    assert (J : In e (filter (fun e => is_candidate prefix (entry_name e))
                        entries)) by (apply filter_In; auto).
    rewrite F in J. contradiction.
  - assert (I0 : forall e, In e (e0 :: rest) ->
                   In e entries /\ is_candidate prefix (entry_name e) = true)
      by (intros e J; rewrite <- F in J; now apply filter_In in J).
    destruct (entry_mtime e0) as [t0| |] eqn:E0.
    + destruct (newest_from e0 t0 rest) as [found|failure] eqn:N.
      * simpl. split; [discriminate|].
        intros [H|[e [I [C M]]]].
        -- destruct (I0 e0 (or_introl eq_refl)) as [I C]. rewrite (H _ I) in C.
           discriminate.
        -- assert (J : In e (e0 :: rest)) by (rewrite <- F; apply filter_In; auto).
           destruct (newest_from_spec _ _ _ _ E0 N) as [t [_ [_ [_ Hall]]]].
           destruct J as [<-|J]; [now apply M in E0|].
           destruct (Hall e J) as [t' [E' _]]. now apply M in E'.
      * split; [intros _ | destruct failure; reflexivity].
        destruct (newest_from_fails _ _ _ _ N) as [e [I [M Nt]]].
        right. exists e. destruct (I0 e (or_intror I)) as [I' C].
        repeat split; auto. rewrite M. exact Nt.
    + simpl. split; [intros _|reflexivity]. right. exists e0.
      destruct (I0 e0 (or_introl eq_refl)). repeat split; auto.
      rewrite E0. discriminate.
    + simpl. split; [intros _|reflexivity]. right. exists e0.
      destruct (I0 e0 (or_introl eq_refl)). repeat split; auto.
      rewrite E0. discriminate.
Qed.

Lemma lower_append a b : lower (String.append a b) = String.append (lower a) (lower b).
Proof.
  induction a as [|c a IH]; simpl; [reflexivity | now rewrite IH].
Qed.

Lemma endswith_append a suffix : endswith (String.append a suffix) suffix = true.
Proof.
  induction a as [|c a IH]; simpl.
  - destruct suffix; simpl; [reflexivity|].
    now rewrite Ascii.eqb_refl, String.eqb_refl.
  - rewrite IH. apply orb_true_r.
Qed.

Lemma endswith_after a b suffix :
  endswith b suffix = true -> endswith (String.append a b) suffix = true.
Proof.
  intros H. induction a as [|c a IH]; simpl; [exact H|].
  rewrite IH. apply orb_true_r.
Qed.

Lemma OUTPUT_FILENAME_candidate env : is_candidate "" (OUTPUT_FILENAME env) = true.
Proof.
  unfold is_candidate, OUTPUT_FILENAME.
  rewrite String.eqb_refl, andb_true_r.
  repeat rewrite lower_append.
  repeat apply endswith_after.
  change (lower ".csv") with (String.append "" ".csv"). apply endswith_append.
Qed.

(** X3: the file the fetch script writes passes the filter of the load
    script. When it is in the data directory, the modification times of the
    files that pass the filter can be read and every such file with another
    name is strictly older, [find_latest_csv] prints nothing and returns
    the path of the snapshot. *)
Theorem snapshot_is_found (directory : string) (entries : list Entry)
    (env : Environ) (t : Z) :
  In {| entry_name := OUTPUT_FILENAME env; entry_mtime := Mtime t |} entries ->
  (forall e, In e entries -> is_candidate "" (entry_name e) = true ->
             exists t', entry_mtime e = Mtime t'
                        /\ ((t' < t)%Z \/ entry_name e = OUTPUT_FILENAME env)) ->
  find_latest_csv directory (Listed entries) "" =
    ([], Some (path_join directory (OUTPUT_FILENAME env))).
Proof.
  intros I H. unfold find_latest_csv.
  set (snap := {| entry_name := OUTPUT_FILENAME env; entry_mtime := Mtime t |}) in *.
  assert (J : In snap (filter (fun e => is_candidate "" (entry_name e)) entries))
    by (apply filter_In; split; [exact I | apply OUTPUT_FILENAME_candidate]).
  assert (A : forall e, In e (filter (fun e => is_candidate "" (entry_name e))
                                entries) ->
                exists t', entry_mtime e = Mtime t'
                           /\ ((t' < t)%Z \/ entry_name e = OUTPUT_FILENAME env)).
  { intros e K. apply filter_In in K. destruct K. auto. }
  destruct (filter _ entries) as [|e0 rest]; [contradiction|].
  destruct (A e0 (or_introl eq_refl)) as [t0 [E0 _]]. rewrite E0.
  destruct (newest_from_total rest e0 t0) as [found N].
  { intros e K. destruct (A e (or_intror K)) as [t' [E _]]. eauto. }
  rewrite N.
  destruct (newest_from_spec _ _ _ _ E0 N) as [tf [Hf [Hin [Hle Hall]]]].
  assert (K : In found (e0 :: rest)) by (destruct Hin as [->|Hin]; [now left | now right]).
  destruct (A found K) as [tf' [Hf' Hor]].
  rewrite Hf in Hf'. injection Hf' as <-.
  destruct Hor as [L | ->]; [|reflexivity].
  exfalso. subst snap.
  assert (T : (t <= tf)%Z); [|lia].
  destruct J as [J|J].
  - subst e0. simpl in E0. injection E0 as <-. exact Hle.
  - destruct (Hall _ J) as [t' [E' L']]. simpl in E'. injection E' as <-. exact L'.
Qed.

(** ** The validator and the table together *)

Lemma filter_length_zero_inv {A} (f : A -> bool) l :
  List.length (filter f l) = 0 -> forall a, In a l -> f a = false.
Proof.
  intros H a I. destruct (f a) eqn:E; [|reflexivity].
  pose proof (filter_length_pos f l a I E). lia.
Qed.

Lemma null_pk_count_zero df :
  null_pk_count df = 0 <-> forall r, In r (rows_of df) -> null_in_pk r = false.
Proof.
  unfold null_pk_count. split.
  - apply filter_length_zero_inv.
  - apply filter_length_zero.
Qed.

Lemma duplicate_count_zero df :
  duplicate_count df = 0 <->
  forall i j, i < len df -> j < len df -> i <> j ->
              pk_of (row_at df i) <> pk_of (row_at df j).
Proof.
  unfold duplicate_count. split.
  - intros H i j Hi Hj N E.
    assert (S : shares_pk df j = true)
      by (apply shares_pk_true; exists i; auto).
    rewrite (filter_length_zero_inv _ _ H j) in S; [discriminate|].
    apply in_seq. lia.
  - intros H. apply filter_length_zero. intros i Hi. apply in_seq in Hi.
    destruct (shares_pk df i) eqn:E; [|reflexivity].
    apply shares_pk_true in E. destruct E as [j [Hj [N E]]].
    exfalso. apply (H j i); auto. lia.
Qed.

Lemma validate_Ok_inv df p :
  fst (validate df p) = Ok tt ->
  exists pk d,
    getitems df pk_cols = Ok pk
    /\ null_pk_count df = 0
    /\ duplicate_count df = 0
    /\ get_col df "description" = Some d.
Proof.
  destruct (getitems df pk_cols) as [pk|e] eqn:E.
  - rewrite (validate_run _ _ p E).
    destruct (Nat.ltb_spec 0 (null_pk_count df)); [discriminate|].
    destruct (Nat.ltb_spec 0 (duplicate_count df)); [discriminate|].
    destruct (get_col df "description") as [d|]; [|discriminate].
    intros _. exists pk, d. repeat split; auto; lia.
  - rewrite (validate_missing_key _ _ p E). discriminate.
Qed.

Lemma getitems_columns df cs ss :
  getitems df cs = Ok ss -> forall c, In c cs -> In c (columns df).
Proof.
  intros H c I. destruct (get_col df c) as [s|] eqn:G.
  - eapply get_col_In; eauto.
  - exfalso. apply getitems_Ok in H.
    assert (J : In (get_col df c) (map (get_col df) cs)) by now apply in_map.
    rewrite H, G in J. apply in_map_iff in J. destruct J as [x [X _]].
    discriminate.
Qed.

(** X4: the validator lets a frame whose labels are distinct through
    exactly when the frame has the three key columns and a description
    column, no row has a null in a key column and no two rows carry the
    same key. *)
Theorem validate_passes_iff (df : DataFrame) (p : Process) :
  NoDup (columns df) ->
  fst (validate df p) = Ok tt <->
  (forall c, In c pk_cols -> In c (columns df))
  /\ In "description" (columns df)
  /\ (forall r, In r (rows_of df) -> null_in_pk r = false)
  /\ (forall i j, i < len df -> j < len df -> i <> j ->
                  pk_of (row_at df i) <> pk_of (row_at df j)).
Proof.
  intros _. split.
  - intros H. destruct (validate_Ok_inv _ _ H) as [pk [d [E [N [D G]]]]].
    split; [eapply getitems_columns; eauto|].
    split; [eapply get_col_In; eauto|].
    split; [now apply null_pk_count_zero | now apply duplicate_count_zero].
  - intros [Hc [Hd [Hn Hu]]].
    destruct (getitems_present _ _ Hc) as [pk Hpk].
    rewrite (validate_run _ _ p Hpk).
    apply null_pk_count_zero in Hn. apply duplicate_count_zero in Hu.
    rewrite Hn, Hu. simpl.
    destruct (get_col df "description") eqn:G; [reflexivity|].
    apply get_col_None in G. contradiction.
Qed.





Lemma pk_has_null_row_at df pk i :
  getitems df pk_cols = Ok pk ->
  pk_has_null (row_at df i) = null_in_pk (row_at df i).
Proof.
  intros H. unfold pk_has_null, null_in_pk.
  rewrite (pk_of_row_at _ _ i H), !existsb_map. reflexivity.
Qed.

Lemma NoDup_map_on {A B} (f : A -> B) l :
  NoDup l ->
  (forall x y, In x l -> In y l -> x <> y -> f x <> f y) ->
  NoDup (map f l).
Proof.
  induction 1 as [|a l N ND IH]; simpl; intros H; constructor.
  - intros I. apply in_map_iff in I. destruct I as [x [E I]].
    apply (H x a); auto. intros ->. contradiction.
  - apply IH. intros x y Ix Iy. apply H; auto.
Qed.

(** The rows of a frame that passed the validator have complete, pairwise
    distinct keys. *)
Lemma validated_rows df p :
  fst (validate df p) = Ok tt ->
  NoDup (map pk_of (rows_of df))
  /\ forall r, In r (rows_of df) -> pk_has_null r = false.
Proof.
  intros H. destruct (validate_Ok_inv _ _ H) as [pk [d [E [N [D G]]]]].
  split.
  - unfold rows_of. rewrite map_map. apply NoDup_map_on; [apply seq_NoDup|].
    intros i j Hi Hj. apply in_seq in Hi, Hj.
    apply (proj1 (duplicate_count_zero df) D); lia.
  - intros r I. pose proof (proj1 (null_pk_count_zero df) N r I) as Z0.
    unfold rows_of in I. apply in_map_iff in I. destruct I as [i [<- _]].
    now rewrite (pk_has_null_row_at _ _ _ E).
Qed.

Lemma pk_in_false t r : pk_in t r = false <-> ~ In (pk_of r) (map pk_of t).
Proof.
  unfold pk_in. split.
  - intros H I. apply in_map_iff in I. destruct I as [r' [E I]].
    assert (X : existsb (fun r' => same_pk r' r) t = true); [|congruence].
    apply existsb_exists. exists r'. split; [exact I | now apply same_pk_eq].
  - intros H. destruct (existsb _ t) eqn:E; [|reflexivity].
    apply existsb_exists in E. destruct E as [r' [I E]].
    apply same_pk_eq in E. exfalso. apply H. rewrite <- E. now apply in_map.
Qed.

Lemma pk_in_snoc t r r' :
  pk_in t r' = false -> pk_of r <> pk_of r' -> pk_in (t ++ [r]) r' = false.
Proof.
  intros H N. apply pk_in_false. rewrite map_app. intros I.
  apply in_app_or in I. destruct I as [I|[I|[]]].
  - now apply pk_in_false in H.
  - contradiction.
Qed.

(** Rows with complete, pairwise distinct keys that are not in the table
    never meet its key constraint. *)
Lemma exec_insert_no_conflict rows : forall t,
  NoDup (map pk_of rows) ->
  (forall r, In r rows -> pk_has_null r = false /\ pk_in t r = false) ->
  exec_insert t rows = Ok (t ++ rows)
  \/ exec_insert t rows = Raise DataError
     /\ exists r, In r rows /\ description_too_long r = true.
Proof.
  induction rows as [|r rows IH]; simpl; intros t ND H.
  - left. now rewrite app_nil_r.
  - apply NoDup_cons_iff in ND. destruct ND as [N ND].
    destruct (H r (or_introl eq_refl)) as [H1 H2].
    unfold insert_row. destruct (description_too_long r) eqn:L.
    { right. split; [reflexivity|]. exists r. auto. }
    rewrite H1, H2.
    destruct (IH (t ++ [r]) ND) as [E|[E [r' [I L']]]].
    + intros r' I. destruct (H r' (or_intror I)) as [H1' H2'].
      split; [exact H1'|]. apply pk_in_snoc; [exact H2'|].
      intros E. apply N. rewrite E. now apply in_map.
    + left. rewrite E, <- app_assoc. reflexivity.
    + right. split; [exact E|]. exists r'. auto.
Qed.

Lemma exec_insert_keeps_keys rows : forall t t',
  keys_unique t -> exec_insert t rows = Ok t' -> keys_unique t'.
Proof.
  induction rows as [|r rows IH]; simpl; intros t t' K H.
  - now injection H as <-.
  - unfold insert_row in H.
    destruct (description_too_long r); [discriminate|].
    destruct (pk_has_null r) eqn:N; [discriminate|].
    destruct (pk_in t r) eqn:I; [discriminate|].
    apply (IH (t ++ [r]) t'); [|exact H].
    destruct K as [K1 K2]. split.
    + rewrite map_app. apply NoDup_app; [exact K1 | repeat constructor; auto |].
      intros k Ik [<-|[]]. now apply pk_in_false in I.
    + intros r' J. apply in_app_or in J. destruct J as [J|[<-|[]]]; auto.
Qed.

Lemma msg_not_before_step3 l0 m :
  forallb before_step3 l0 = true -> before_step3 m = false -> ~ In m l0.
Proof.
  intros H F I. pose proof (before_step3_In _ _ H I). congruence.
Qed.

(** X6: a run ends in one of two ways, never with an exception of another
    kind: at its last line, after printing "ETL process finished", or
    through [sys.exit(1)], without that line. *)
Theorem run_ends_finished_or_exit_1 (w : World) :
  (fst (run w) = Ok tt /\ In MFinished (stdout (snd (run w))))
  \/ (fst (run w) = Raise (SystemExit 1)
      /\ ~ In MFinished (stdout (snd (run w)))).
Proof.
  destruct (run_cases w) as [l0 [Hl H]].
  pose proof (msg_not_before_step3 l0 MFinished Hl eq_refl) as NF.
  destruct H as [H|[H|[H|[csv [df [_ [_ [_ H]]]]]]]];
    specialize (H (table w)); rewrite with_table_same in H; rewrite H.
  - right. split; [reflexivity | exact NF].
  - right. split; [reflexivity|]. simpl. rewrite in_app_iff. simpl.
    intuition discriminate.
  - right. split; [reflexivity|]. simpl. rewrite in_app_iff. simpl.
    intuition discriminate.
  - rewrite finish_load_run. destruct (db_fault w).
    + right. split; [reflexivity|]. simpl. rewrite in_app_iff. simpl.
      intuition discriminate.
    + destruct (exec_insert _ _) as [t'|e]; [|destruct (is_IntegrityError e)].
      * left. split; [reflexivity|]. simpl. rewrite in_app_iff. simpl. tauto.
      * left. split; [reflexivity|]. simpl. rewrite in_app_iff. simpl. tauto.
      * right. split; [reflexivity|]. simpl. rewrite in_app_iff. simpl.
        intuition discriminate.
Qed.

(** X7: a run stores every row of the file or none. The table after the run
    is the table before it, or the table before it followed by all the rows
    of the prepared frame in their order; in the second case the run ends at
    its last line and the count it prints is the number of rows. Rows that
    were in the table are never changed or removed. *)
Theorem run_stores_all_rows_or_none (w : World) :
  db (snd (run w)) = table w
  \/ exists csv df,
       latest_csv w = Some (Some csv)
       /\ normalize csv = Ok df
       /\ db (snd (run w)) = table w ++ rows_of df
       /\ fst (run w) = Ok tt
       /\ In (MLoaded (List.length (rows_of df))) (stdout (snd (run w))).
Proof.
  destruct (run_cases w) as [l0 [Hl H]].
  destruct H as [H|[H|[H|[csv [df [Hf [Hn [_ H]]]]]]]];
    specialize (H (table w)); rewrite with_table_same in H; rewrite H;
    try (left; reflexivity).
  rewrite finish_load_run. destruct (db_fault w); [left; reflexivity|].
  destruct (exec_insert _ _) as [t'|e] eqn:X;
    [|destruct (is_IntegrityError e); left; reflexivity].
  right. exists csv, df. apply exec_insert_Ok in X.
  rewrite rows_of_length. repeat split; auto.
  simpl. rewrite in_app_iff. simpl. tauto.
Qed.

(** X8: when a run prints the integrity error, a row of the file carries a
    key that was already in the table: the validator has excluded null and
    duplicate keys inside the file, so the conflict is with stored data. *)
Theorem integrity_error_means_stored_key (w : World) :
  In MIntegrityError (stdout (snd (run w))) ->
  exists csv df r,
    latest_csv w = Some (Some csv)
    /\ normalize csv = Ok df
    /\ In r (rows_of df)
    /\ pk_in (table w) r = true.
Proof.
  destruct (run_cases w) as [l0 [Hl H]].
  pose proof (msg_not_before_step3 l0 MIntegrityError Hl eq_refl) as NI.
  destruct H as [H|[H|[H|[csv [df [Hf [Hn [V H]]]]]]]];
    specialize (H (table w)); rewrite with_table_same in H; rewrite H;
    try (simpl; rewrite ?in_app_iff; simpl; intuition discriminate).
  rewrite finish_load_run.
  destruct (validated_rows df (start w) (V _)) as [ND NN].
  destruct (existsb (pk_in (table w)) (rows_of df)) eqn:C.
  - intros _. apply existsb_exists in C. destruct C as [r [I C]].
    exists csv, df, r. auto.
  - assert (F : forall r, In r (rows_of df) ->
                  pk_has_null r = false /\ pk_in (table w) r = false).
    { intros r I. split; [auto|].
      destruct (pk_in (table w) r) eqn:E; [|reflexivity].
      rewrite <- C. symmetry. apply existsb_exists. eauto. }
    destruct (db_fault w);
      [simpl; rewrite in_app_iff; simpl; intuition discriminate|].
    destruct (exec_insert_no_conflict _ (table w) ND F) as [-> | [-> _]];
      simpl; rewrite in_app_iff; simpl; intuition discriminate.
Qed.

(** X9: with Python, the file and the database in order, a file whose
    lower-cased labels are distinct and whose frame passes the validator,
    has no key of the table and only descriptions that fit the column, is
    stored whole: the run ends at its last line with the engine disposed
    and the table holds the old rows followed by the rows of the frame. *)
Theorem clean_batch_is_stored (w : World) (csv df : DataFrame) :
  credentials w = true ->
  latest_csv w = Some (Some csv) ->
  NoDup (map lower (columns csv)) ->
  engine_ok w = true ->
  db_reachable w = true ->
  db_fault w = false ->
  normalize csv = Ok df ->
  fst (validate df (start w)) = Ok tt ->
  (forall r, In r (rows_of df) ->
             pk_in (table w) r = false /\ description_too_long r = false) ->
  fst (run w) = Ok tt
  /\ db (snd (run w)) = table w ++ rows_of df
  /\ engine (snd (run w)) = disposed_engine
  /\ In (MLoaded (len df)) (stdout (snd (run w))).
Proof.
  intros Hc Hf _ He Hr Hd Hn Hv Hrows.
  destruct (validated_rows _ _ Hv) as [ND NN].
  destruct (validate_effect df) as [r [l [V _]]].
  rewrite V in Hv. simpl in Hv. subst r.
  assert (X : exec_insert (table w) (rows_of df) = Ok (table w ++ rows_of df)).
  { destruct (exec_insert_no_conflict _ (table w) ND) as [E|[_ [r [I L]]]];
      [| exact E |].
    - intros r I. split; [auto | apply Hrows; exact I].
    - destruct (Hrows r I) as [_ L']. congruence. }
  rewrite run_unfold, Hc, Hf, read_and_validate_run, Hn, V.
  rewrite connect_run by reflexivity. rewrite He, Hr.
  erewrite load_run by reflexivity. rewrite Hd. simpl. rewrite X.
  repeat split; auto.
  simpl. rewrite !in_app_iff. simpl. tauto.
Qed.

(** X10: a run keeps the primary-key constraint of the table: when no two
    stored rows share a key and no stored key has a null, the same holds of
    the table after the run, whatever the file holds. *)
Theorem run_keeps_keys_unique (w : World) :
  keys_unique (table w) -> keys_unique (db (snd (run w))).
Proof.
  intros K.
  destruct (run_cases w) as [l0 [Hl H]].
  destruct H as [H|[H|[H|[csv [df [Hf [Hn [_ H]]]]]]]];
    specialize (H (table w)); rewrite with_table_same in H; rewrite H;
    try exact K.
  rewrite finish_load_run. destruct (db_fault w); [exact K|].
  destruct (exec_insert _ _) as [t'|e] eqn:X;
    [|destruct (is_IntegrityError e); exact K].
  simpl. eapply exec_insert_keeps_keys; eauto.
Qed.

(** ** The preparation of the frame *)

Lemma lower_ascii_idem c : lower_ascii (lower_ascii c) = lower_ascii c.
Proof.
  destruct c as [[|] [|] [|] [|] [|] [|] [|] [|]]; reflexivity.
Qed.

Lemma lower_idem x : lower (lower x) = lower x.
Proof.
  induction x as [|c x IH]; simpl; [reflexivity|].
  now rewrite lower_ascii_idem, IH.
Qed.

Lemma lower_columns_fixed d :
  (forall c, In c (columns d) -> lower c = c) -> lower_columns d = d.
Proof.
  induction d as [|[c x] d IH]; simpl; intros H; [reflexivity|].
  rewrite (H c (or_introl eq_refl)), IH; auto.
Qed.

Lemma set_col_same d c x : get_col d c = Some x -> set_col d c x = d.
Proof.
  induction d as [|[c' x'] d IH]; simpl; [reflexivity|].
  destruct (String.eqb c' c); [now intros [= ->] | intros H; now rewrite IH].
Qed.

Lemma len_set_col d c x x0 :
  get_col d c = Some x0 -> series_len x = series_len x0 ->
  len (set_col d c x) = len d.
Proof.
  destruct d as [|[c' x'] d]; simpl; [reflexivity|].
  destruct (String.eqb c' c); simpl; [|reflexivity].
  intros [= ->]. auto.
Qed.

Lemma len_lower_columns d : len (lower_columns d) = len d.
Proof.
  destruct d as [|[c x] d]; reflexivity.
Qed.

Lemma convert_col_result f c d d' x' :
  convert_col f c d = Ok d' -> get_col d' c = Some x' ->
  exists x, get_col d c = Some x /\ f x = Ok x'.
Proof.
  unfold convert_col, getitem. destruct (has_col d c) eqn:C.
  - destruct (get_col d c) as [x|] eqn:G; [|discriminate].
    destruct (f x) as [y|] eqn:F; [|discriminate].
    intros [= <-]. rewrite (get_set_same _ _ _ _ G). intros [= <-]. eauto.
  - intros [= <-] G. exfalso.
    assert (X : has_col d c = true) by (apply has_col_get; eauto). congruence.
Qed.

Lemma convert_col_fixed f c d :
  (forall x, get_col d c = Some x -> f x = Ok x) -> convert_col f c d = Ok d.
Proof.
  intros H. unfold convert_col, getitem.
  destruct (has_col d c) eqn:C; [|reflexivity].
  apply has_col_get in C. destruct C as [x G].
  rewrite G, (H x G). now rewrite set_col_same.
Qed.

Lemma convert_cols_fixed f cols d :
  (forall c x, In c cols -> get_col d c = Some x -> f x = Ok x) ->
  convert_cols f cols d = Ok d.
Proof.
  induction cols as [|c cols IH]; simpl; intros H; [reflexivity|].
  rewrite convert_col_fixed; [apply IH|]; eauto.
Qed.

Lemma convert_col_len f c d d' :
  (forall x x', f x = Ok x' -> series_len x' = series_len x) ->
  convert_col f c d = Ok d' -> len d' = len d.
Proof.
  intros L. unfold convert_col, getitem.
  destruct (has_col d c); [|now intros [= <-]].
  destruct (get_col d c) as [x|] eqn:G; [|discriminate].
  destruct (f x) as [x'|] eqn:F; [|discriminate].
  intros [= <-]. eapply len_set_col; eauto.
Qed.

Lemma convert_cols_len f cols :
  (forall x x', f x = Ok x' -> series_len x' = series_len x) ->
  forall d d', convert_cols f cols d = Ok d' -> len d' = len d.
Proof.
  intros L. induction cols as [|c cols IH]; simpl; intros d d' H.
  - now injection H as <-.
  - destruct (convert_col f c d) as [d1|] eqn:E; [|discriminate].
    rewrite (IH _ _ H). eapply convert_col_len; eauto.
Qed.

Lemma convert_cols_result f cols c :
  NoDup cols -> In c cols ->
  forall d d' x',
    convert_cols f cols d = Ok d' -> get_col d' c = Some x' ->
    exists x, get_col d c = Some x /\ f x = Ok x'.
Proof.
  intros ND I d d' x' H G.
  assert (C : In c (columns d)).
  { rewrite <- (convert_cols_columns _ _ _ _ H). eapply get_col_In; eauto. }
  destruct (get_col d c) as [x|] eqn:G0; [|now apply get_col_None in G0].
  destruct (convert_cols_at _ _ _ ND I _ _ _ G0 H) as [y [F G1]].
  exists x. split; [reflexivity|]. congruence.
Qed.

Lemma convert_cols_raises f cols c :
  In c cols ->
  forall d x e,
    get_col d c = Some x -> f x = Raise e ->
    exists e', convert_cols f cols d = Raise e'.
Proof.
  induction cols as [|c0 cols IH]; simpl; [contradiction|].
  intros I d x e G F.
  destruct (convert_col f c0 d) as [d1|e1] eqn:E; [|eauto].
  destruct (String.eqb_spec c0 c) as [->|N].
  - unfold convert_col, getitem in E.
    assert (C : has_col d c = true) by (apply has_col_get; eauto).
    rewrite C, G, F in E. discriminate.
  - destruct I as [->|I]; [contradiction|].
    apply (IH I d1 x e); [|exact F].
    rewrite <- G. eapply convert_col_other; eauto.
Qed.

Lemma all_some_cells {A} (g : A -> Cell) (k : Cell -> option (option A)) v :
  (forall o, k (opt_cell g o) = Some o) ->
  all_some (map k (map (opt_cell g) v)) = Some v.
Proof.
  intros H. induction v as [|o v IH]; simpl; [reflexivity|].
  now rewrite H, IH.
Qed.

Lemma to_datetime_fixed x x' : to_datetime x = Ok x' -> to_datetime x' = Ok x'.
Proof.
  unfold to_datetime. destruct (all_some _) as [v|]; [|discriminate].
  intros [= <-]. simpl. rewrite all_some_cells; [reflexivity|].
  intros [t|]; reflexivity.
Qed.

Lemma to_numeric_fixed x x' :
  to_numeric errors_coerce x = Ok x' -> to_numeric errors_coerce x' = Ok x'.
Proof.
  destruct x as [v|v|v|v|v]; simpl; try (intros [= <-]; reflexivity).
  destruct (all_some _) as [ns|]; [|discriminate].
  destruct (all_ints ns); intros [= <-]; reflexivity.
Qed.

Lemma astype_Int64_dtype x x' : astype_Int64 x = Ok x' -> dtype x' = Int64.
Proof.
  destruct x as [v|v|v|v|v]; simpl; try (intros [= <-]; reflexivity);
    try discriminate;
    destruct (all_some _); try discriminate; intros [= <-]; reflexivity.
Qed.

Lemma astype_Int64_fixed x x' :
  astype_Int64 x = Ok x' -> astype_Int64 x' = Ok x'.
Proof.
  intros H. apply astype_Int64_dtype in H.
  destruct x'; try discriminate. reflexivity.
Qed.

Lemma to_datetime_length x x' :
  to_datetime x = Ok x' -> series_len x' = series_len x.
Proof.
  unfold to_datetime. destruct (all_some _) as [v|] eqn:E; [|discriminate].
  intros [= <-]. apply all_some_length in E.
  unfold series_len. simpl. rewrite length_map in *. exact E.
Qed.

Lemma astype_Int64_length x x' :
  astype_Int64 x = Ok x' -> series_len x' = series_len x.
Proof.
  unfold series_len.
  destruct x as [v|v|v|v|v]; simpl; try discriminate;
    try (intros [= <-]; simpl; now rewrite !length_map);
    destruct (all_some _) as [zs|] eqn:E; try discriminate;
    intros [= <-]; apply all_some_length in E; simpl;
    rewrite !length_map in *; exact E.
Qed.

Lemma int_cols_NoDup : NoDup int_cols.
Proof.
  unfold int_cols.
  repeat (constructor; [simpl; intuition discriminate|]).
  constructor.
Qed.

Lemma numeric_not_int c : In c numeric_cols -> ~ In c int_cols.
Proof.
  assert (H : forallb (fun c => negb (mem c int_cols)) numeric_cols = true)
    by reflexivity.
  intros I. apply mem_false. apply negb_true_iff.
  revert c I. now apply forallb_forall.
Qed.

Lemma game_date_not_numeric : ~ In "game_date" numeric_cols.
Proof.
  apply mem_false. reflexivity.
Qed.

Lemma game_date_not_int : ~ In "game_date" int_cols.
Proof.
  apply mem_false. reflexivity.
Qed.

(** The three stages of the preparation. *)
Lemma normalize_stages df df' :
  normalize df = Ok df' ->
  exists d1 d2,
    convert_col to_datetime "game_date" (lower_columns df) = Ok d1
    /\ convert_cols (to_numeric errors_coerce) numeric_cols d1 = Ok d2
    /\ convert_cols astype_Int64 int_cols d2 = Ok df'.
Proof.
  unfold normalize, prepare_dates, coerce_numeric, cast_integers.
  destruct (convert_col _ _ _) as [d1|] eqn:E1; [|discriminate].
  destruct (convert_cols _ numeric_cols _) as [d2|] eqn:E2; [|discriminate].
  intros E3. exists d1, d2. repeat split; auto.
Qed.

(** X11: the preparation keeps the shape of the frame. The columns come out
    in the same order under their lower-cased names, the number of rows is
    the same, and a column that is neither game_date nor in one of the two
    lists comes out with the series it had. *)
Theorem normalize_keeps_shape (df df' : DataFrame) :
  normalize df = Ok df' ->
  columns df' = map lower (columns df)
  /\ len df' = len df
  /\ forall c, c <> "game_date" -> ~ In c numeric_cols -> ~ In c int_cols ->
               get_col df' c = get_col (lower_columns df) c.
Proof.
  intros H. destruct (normalize_stages _ _ H) as [d1 [d2 [E1 [E2 E3]]]].
  split; [|split].
  - rewrite (convert_cols_columns _ _ _ _ E3), (convert_cols_columns _ _ _ _ E2),
      (convert_col_columns _ _ _ _ E1). apply columns_lower.
  - rewrite (convert_cols_len _ _ astype_Int64_length _ _ E3),
      (convert_cols_len _ _ to_numeric_coerce_length _ _ E2),
      (convert_col_len _ _ _ _ to_datetime_length E1).
    apply len_lower_columns.
  - intros c N1 N2 N3.
    rewrite (convert_cols_other _ _ _ _ _ N3 E3),
      (convert_cols_other _ _ _ _ _ N2 E2).
    eapply convert_col_other; [|exact E1]. congruence.
Qed.

(** X12: preparing a prepared frame changes nothing: the names are already
    in lower case, [game_date] is already a datetime column, the numeric
    columns are numeric and the integer columns are nullable integers. *)
Theorem normalize_idempotent (df df' : DataFrame) :
  normalize df = Ok df' -> normalize df' = Ok df'.
Proof.
  intros H. destruct (normalize_stages _ _ H) as [d1 [d2 [E1 [E2 E3]]]].
  assert (C : columns df' = map lower (columns df)) by now apply normalize_columns.
  unfold normalize, prepare_dates, coerce_numeric, cast_integers.
  rewrite lower_columns_fixed.
  2:{ intros c I. rewrite C in I. apply in_map_iff in I.
      destruct I as [c0 [<- _]]. apply lower_idem. }
  rewrite convert_col_fixed.
  2:{ intros x G.
      rewrite (convert_cols_other _ _ _ _ _ game_date_not_int E3),
        (convert_cols_other _ _ _ _ _ game_date_not_numeric E2) in G.
      destruct (convert_col_result _ _ _ _ _ E1 G) as [x0 [_ F]].
      eapply to_datetime_fixed; eauto. }
  rewrite convert_cols_fixed.
  2:{ intros c x I G.
      rewrite (convert_cols_other _ _ _ _ _ (numeric_not_int _ I) E3) in G.
      destruct (convert_cols_result _ _ _ numeric_cols_NoDup I _ _ _ E2 G)
        as [x0 [_ F]].
      eapply to_numeric_fixed; eauto. }
  apply convert_cols_fixed.
  intros c x I G.
  destruct (convert_cols_result _ _ _ int_cols_NoDup I _ _ _ E3 G) as [x0 [_ F]].
  eapply astype_Int64_fixed; eauto.
Qed.

Lemma all_some_map_nth {A B} (g : option A -> option (option B)) v :
  g None = Some None ->
  forall zs i,
    all_some (map g v) = Some zs -> g (nth i v None) = Some (nth i zs None).
Proof.
  intros G. induction v as [|o v IH]; simpl; intros zs i H.
  - injection H as <-. destruct i; exact G.
  - destruct (g o) as [b|] eqn:E; [|discriminate].
    destruct (all_some (map g v)) as [zs'|] eqn:E'; [|discriminate].
    injection H as <-. destruct i; simpl; [exact E | now apply IH].
Qed.

Lemma cell_at_opt {A} (g : A -> Cell) (v : list (option A)) i :
  nth i (map (opt_cell g) v) CNull = opt_cell g (nth i v None).
Proof.
  change CNull with (opt_cell g None). apply map_nth.
Qed.

Lemma astype_Int64_cells x x' :
  astype_Int64 x = Ok x' ->
  forall i,
    is_null (cell_at x' i) = is_null (cell_at x i)
    /\ forall z, cell_at x i = CInt z -> cell_at x' i = CInt z.
Proof.
  unfold cell_at. destruct x as [v|v|v|v|v]; simpl; try discriminate.
  - intros [= <-] i. simpl. rewrite map_map. simpl. auto.
  - destruct (all_some _) as [zs|] eqn:E; [|discriminate].
    intros [= <-] i. simpl. rewrite !cell_at_opt.
    pose proof (all_some_map_nth _ v eq_refl zs i E) as N. simpl in N.
    destruct (nth i v None) as [f|].
    + destruct (int_of_float f); [|discriminate].
      injection N as <-. simpl. split; [reflexivity | discriminate].
    + injection N as <-. simpl. split; [reflexivity | discriminate].
  - destruct (all_some _) as [zs|] eqn:E; [|discriminate].
    intros [= <-] i. simpl. rewrite !cell_at_opt.
    pose proof (all_some_map_nth _ v eq_refl zs i E) as N. simpl in N.
    destruct (nth i v None) as [f|].
    + destruct (int_of_string f); [|discriminate].
      injection N as <-. simpl. split; [reflexivity | discriminate].
    + injection N as <-. simpl. split; [reflexivity | discriminate].
  - intros [= <-] i. auto.
Qed.

(** X13: after the cast of the integer columns, a column of [int_cols] is a
    nullable-integer column of the same length; a missing value stays
    missing (it does not become 0), a value that was present stays present,
    and an integer keeps its value. *)
Theorem integer_columns_keep_nulls (df df' : DataFrame) (c : string)
    (x : Series) :
  In c int_cols ->
  get_col df c = Some x ->
  cast_integers df = Ok df' ->
  exists x',
    get_col df' c = Some x'
    /\ dtype x' = Int64
    /\ series_len x' = series_len x
    /\ forall i,
         is_null (cell_at x' i) = is_null (cell_at x i)
         /\ forall z, cell_at x i = CInt z -> cell_at x' i = CInt z.
Proof.
  intros I G H. unfold cast_integers in H.
  destruct (convert_cols_at _ _ _ int_cols_NoDup I _ _ _ G H) as [x' [F G']].
  exists x'. split; [exact G'|].
  split; [eapply astype_Int64_dtype; eauto|].
  split; [eapply astype_Int64_length; eauto|].
  now apply astype_Int64_cells.
Qed.

Lemma astype_Int64_not_integral v f :
  In (Some f) v -> int_of_float f = None ->
  astype_Int64 (SFloat64 v) = Raise TypeError.
Proof.
  intros I N. simpl.
  rewrite (all_some_None _ v (Some f)); auto. simpl. now rewrite N.
Qed.

Lemma run_after_failed_preparation w csv e :
  latest_csv w = Some (Some csv) -> normalize csv = Raise e ->
  fst (run w) = Raise (SystemExit 1)
  /\ db (snd (run w)) = table w
  /\ engine (snd (run w)) = None.
Proof.
  intros Hf N. rewrite run_unfold, Hf, read_and_validate_run, N.
  destruct (credentials w); simpl; auto.
Qed.

(** X14: a float that is not a whole number in a column of [int_cols]
    stops the run: the preparation raises, the script exits with status 1,
    no engine is created and the table is left as it was. *)
Theorem non_integral_value_stops_run (w : World) (csv : DataFrame) (c : string)
    (v : list (option float)) (f : float) :
  latest_csv w = Some (Some csv) ->
  In c int_cols ->
  get_col (lower_columns csv) c = Some (SFloat64 v) ->
  In (Some f) v ->
  int_of_float f = None ->
  (exists e, normalize csv = Raise e)
  /\ fst (run w) = Raise (SystemExit 1)
  /\ db (snd (run w)) = table w
  /\ engine (snd (run w)) = None.
Proof.
  intros Hf I G Iv N.
  assert (R : exists e, normalize csv = Raise e).
  { unfold normalize, prepare_dates, coerce_numeric, cast_integers.
    destruct (convert_col to_datetime _ _) as [d1|e1] eqn:E1; [|eauto].
    destruct (convert_cols_total (to_numeric errors_coerce) numeric_cols
                to_numeric_coerce_total d1) as [d2 E2].
    rewrite E2.
    apply (convert_cols_raises _ _ c I d2 (SFloat64 v) TypeError).
    - rewrite (convert_cols_other _ _ _ _ _ (fun J => numeric_not_int _ J I) E2).
      rewrite <- G. eapply convert_col_other; [|exact E1].
      intros <-. now apply game_date_not_int.
    - eapply astype_Int64_not_integral; eauto. }
  split; [exact R|]. destruct R as [e R].
  eapply run_after_failed_preparation; eauto.
Qed.

(** ** The fetch script *)

Lemma get_col_app a b c :
  get_col (a ++ b) c =
    match get_col a c with
    | Some x => Some x
    | None => get_col b c
    end.
Proof.
  induction a as [|[c' x] a IH]; simpl; [reflexivity|].
  destruct (String.eqb c' c); [reflexivity | exact IH].
Qed.

Lemma get_col_filter_label df c0 c :
  get_col (filter (fun p => String.eqb (fst p) c0) df) c =
    if String.eqb c0 c then get_col df c else None.
Proof.
  induction df as [|[c' x] df IH]; simpl.
  - now destruct (String.eqb c0 c).
  - destruct (String.eqb_spec c' c0) as [->|N]; simpl.
    + destruct (String.eqb c0 c); [reflexivity | exact IH].
    + rewrite IH. destruct (String.eqb_spec c0 c) as [->|N']; [|reflexivity].
      destruct (String.eqb_spec c' c); [contradiction | reflexivity].
Qed.

Lemma get_col_select df cs c :
  get_col (select df cs) c = if mem c cs then get_col df c else None.
Proof.
  unfold select, mem. induction cs as [|c0 cs IH]; simpl; [reflexivity|].
  rewrite get_col_app, get_col_filter_label, IH, (String.eqb_sym c c0).
  destruct (String.eqb c0 c); simpl; [|reflexivity].
  destruct (get_col df c); [reflexivity|].
  now destruct (existsb (String.eqb c) cs).
Qed.

Lemma mem_filter f cs c : mem c (filter f cs) = mem c cs && f c.
Proof.
  unfold mem. induction cs as [|c0 cs IH]; simpl; [reflexivity|].
  destruct (f c0) eqn:F; simpl; rewrite IH.
  - destruct (String.eqb_spec c c0) as [->|N]; simpl; [now rewrite F | reflexivity].
  - destruct (String.eqb_spec c c0) as [->|N]; simpl; [|reflexivity].
    rewrite F. now rewrite andb_false_r.
Qed.

(** X16: a column the cleaner keeps carries the series it had in the source
    and any other label is absent from the result: the label must be in
    [columns_to_keep] and in the source. *)
Theorem cleaned_columns_carry_their_series (df : DataFrame)
    (columns_to_keep : list string) (c : string) :
  get_col (snd (clean_and_select_columns df columns_to_keep)) c =
    if mem c columns_to_keep then get_col df c else None.
Proof.
  unfold clean_and_select_columns, snd.
  rewrite get_col_select, mem_filter.
  destruct (mem c columns_to_keep); simpl; [|reflexivity].
  destruct (has_col df c) eqn:H; [reflexivity|].
  symmetry. apply get_col_None. now apply mem_false.
Qed.

Lemma filter_label_absent df c :
  ~ In c (columns df) -> filter (fun p => String.eqb (fst p) c) df = [].
Proof.
  induction df as [|[c' x] df IH]; simpl; intros N; [reflexivity|].
  destruct (String.eqb_spec c' c) as [->|N']; [exfalso; auto|].
  apply IH. tauto.
Qed.

Lemma filter_label_single df c :
  NoDup (columns df) -> In c (columns df) ->
  columns (filter (fun p => String.eqb (fst p) c) df) = [c].
Proof.
  induction df as [|[c' x] df IH]; simpl; intros ND I; [contradiction|].
  apply NoDup_cons_iff in ND. destruct ND as [N ND].
  destruct (String.eqb_spec c' c) as [->|N'].
  - simpl. now rewrite filter_label_absent.
  - destruct I as [I|I]; [contradiction | auto].
Qed.

(** X17: when the labels of the source are distinct, the cleaner returns
    the kept columns once each, in the order of [columns_to_keep], whatever
    their order in the source. *)
Theorem cleaned_columns_follow_the_schema_order (df : DataFrame)
    (columns_to_keep : list string) :
  NoDup (columns df) ->
  columns (snd (clean_and_select_columns df columns_to_keep)) =
    filter (fun c => has_col df c) columns_to_keep.
Proof.
  intros ND. unfold clean_and_select_columns, snd, select.
  induction columns_to_keep as [|c cs IH]; simpl; [reflexivity|].
  destruct (has_col df c) eqn:H; [|exact IH].
  simpl. unfold columns in *. rewrite map_app.
  fold (columns (filter (fun p => String.eqb (fst p) c) df)).
  rewrite filter_label_single, IH; [reflexivity | exact ND |].
  now apply mem_In.
Qed.

Local Opaque COLUMNS_TO_KEEP.

(** X18: the fetch script ends with status 0 or 1. It ends with status 0
    exactly when the player is found, pybaseball returns a frame with at
    least one row and one column, and the directory and the file can be
    written; the snapshot is written and "Script finished successfully" is
    logged in that case and in no other. *)
Theorem fetch_succeeds_iff (src : Source) :
  (fetch_status (fetch src) = 0%Z \/ fetch_status (fetch src) = 1%Z)
  /\ (fetch_status (fetch src) = 0%Z <->
      (exists player_id ids, lookup src = Some (player_id :: ids))
      /\ (exists data,
            (if String.eqb (player_type src) "pitcher"
             then pitcher_data src else batter_data src) = Some (Some data)
            /\ empty data = false)
      /\ makedirs_ok src = true
      /\ to_csv_ok src = true)
  /\ (fetch_status (fetch src) = 0%Z <-> snapshot (fetch src) <> None)
  /\ (fetch_status (fetch src) = 0%Z <-> In info_finished (logged (fetch src))).
Proof.
  unfold fetch.
  assert (A1 : ~ In info_finished (fst (find_player_id src))).
  { unfold find_player_id. destruct (lookup src) as [[|i [|j l]]|]; simpl;
      intuition discriminate. }
  assert (A2 : ~ In info_finished (fst (get_statcast_data src))).
  { unfold get_statcast_data.
    destruct (if String.eqb (player_type src) "pitcher"
              then pitcher_data src else batter_data src) as [[d|]|];
      [destruct (empty d)| |]; simpl; intuition discriminate. }
  assert (B : forall d, snd (get_statcast_data src) = Some d <->
                (if String.eqb (player_type src) "pitcher"
                 then pitcher_data src else batter_data src) = Some (Some d)
                /\ empty d = false).
  { intros d. unfold get_statcast_data.
    destruct (if String.eqb (player_type src) "pitcher"
              then pitcher_data src else batter_data src) as [[d0|]|];
      [destruct (empty d0) eqn:E| |]; simpl; split;
      try discriminate; try (intros [X _]; discriminate).
    - intros [[= ->] X]. congruence.
    - intros [= ->]. auto.
    - intros [[= ->] _]. reflexivity. }
  assert (L : snd (find_player_id src) <> None <->
              exists player_id ids, lookup src = Some (player_id :: ids)).
  { unfold find_player_id. destruct (lookup src) as [[|i [|j l]]|]; simpl;
      split; try (intros [? [? X]]; discriminate); try congruence;
      intros _; eauto. }
  destruct (find_player_id src) as [log1 [id|]];
    cbv beta iota delta [fst snd logged snapshot fetch_status] in *.
  2:{ split; [auto|]. split; [|split]; split; try discriminate.
      - intros [X _]. apply L in X. contradiction.
      - congruence.
      - contradiction. }
  destruct (get_statcast_data src) as [log2 [d|]];
    cbv beta iota delta [fst snd logged snapshot fetch_status] in *.
  2:{ split; [auto|]. split; [|split]; split; try discriminate.
      - intros [_ [[data X] _]]. apply B in X. discriminate.
      - congruence.
      - rewrite !in_app_iff. simpl. intuition discriminate. }
  assert (A3 : ~ In info_finished
                 (fst (clean_and_select_columns d COLUMNS_TO_KEEP))).
  { unfold clean_and_select_columns, fst.
    destruct (filter _ COLUMNS_TO_KEEP); simpl; intuition discriminate. }
  destruct (clean_and_select_columns d COLUMNS_TO_KEEP) as [log3 cleaned].
  cbv beta iota delta [fst] in A3.
  assert (L' : exists player_id ids, lookup src = Some (player_id :: ids))
    by (apply L; discriminate).
  assert (D' : exists data,
             (if String.eqb (player_type src) "pitcher"
              then pitcher_data src else batter_data src) = Some (Some data)
             /\ empty data = false)
    by (exists d; now apply B).
  destruct (makedirs_ok src); [destruct (to_csv_ok src)|]; simpl.
  - split; [auto|]. split; [|split]; split; auto; try discriminate.
    intros _. rewrite !in_app_iff. simpl. tauto.
  - split; [auto|]. split; [|split]; split; try discriminate; try congruence.
    + intros [_ [_ [_ X]]]. discriminate.
    + rewrite !in_app_iff. simpl. intuition discriminate.
  - split; [auto|]. split; [|split]; split; try discriminate; try congruence.
    + intros [_ [_ [X _]]]. discriminate.
    + rewrite !in_app_iff. simpl. intuition discriminate.
Qed.

Local Transparent COLUMNS_TO_KEEP.

(** ** The chunks of the insert and the duplicate count *)

(** X19: the chunk size of [to_sql] is not observable: for every positive
    chunk size the insert ends as one statement over all the rows would,
    and when it succeeds the table holds the old rows followed by the new
    ones in their order. *)
Theorem chunk_size_is_not_observable (chunksize chunksize' : nat) (t : Table)
    (rows : list Row) :
  0 < chunksize -> 0 < chunksize' ->
  insert_chunks chunksize t rows = insert_chunks chunksize' t rows
  /\ forall t', insert_chunks chunksize t rows = Ok t' -> t' = t ++ rows.
Proof.
  intros H H'. rewrite !insert_chunks_all by assumption.
  split; [reflexivity | apply exec_insert_Ok].
Qed.

(** X20: the count of check 2 is never 1: a row is marked only together
    with another row that carries the same key. *)
Theorem duplicate_count_is_never_one (ss : list Series) (n : nat) :
  sum_bool (duplicated ss n) <> 1.
Proof.
  unfold duplicated. rewrite map_map, sum_bool_map.
  set (keys := map (key_at ss) (seq 0 n)).
  set (g := fun i => (1 <? count_occ key_eq_dec keys (key_at ss i))%nat).
  intros H.
  destruct (filter g (seq 0 n)) as [|i [|i' l]] eqn:F; try discriminate.
  assert (I : In i (filter g (seq 0 n))) by (rewrite F; now left).
  apply filter_In in I. destruct I as [I G].
  unfold g in G. apply Nat.ltb_lt in G.
  apply (count_occ_twice key_eq_dec (key_at ss) _ _ (seq_NoDup _ _) I) in G.
  destruct G as [j [Ij [N E]]].
  assert (J : In j (filter g (seq 0 n))).
  { apply filter_In. split; [exact Ij|]. unfold g. apply Nat.ltb_lt.
    apply (count_occ_twice key_eq_dec (key_at ss) _ _ (seq_NoDup _ _) Ij).
    exists i. auto. }
  rewrite F in J. destruct J as [J|[]]. congruence.
Qed.

(** ** Missing key columns and files without rows *)

Lemma getitems_absent df cs c :
  In c cs -> ~ In c (columns df) -> exists k, getitems df cs = Raise (KeyError k).
Proof.
  intros I N. destruct (getitems df cs) as [ss|e] eqn:E.
  - exfalso. apply N. eapply getitems_columns; eauto.
  - destruct (getitems_KeyError _ _ _ E) as [k ->]. eauto.
Qed.

(** X21: a file without one of the three key columns (names compared in
    lower case) stops the run before any check gives a verdict: the script
    exits with status 1, no engine is created and the table is left as it
    was. *)
Theorem missing_key_column_stops_run (w : World) (csv : DataFrame) (c : string) :
  latest_csv w = Some (Some csv) ->
  In c pk_cols ->
  ~ In c (map lower (columns csv)) ->
  fst (run w) = Raise (SystemExit 1)
  /\ db (snd (run w)) = table w
  /\ engine (snd (run w)) = None
  /\ ~ In MCheck1Passed (stdout (snd (run w)))
  /\ forall n, ~ In (MNullPkError n) (stdout (snd (run w))).
Proof.
  intros Hf I N. rewrite run_unfold, Hf, read_and_validate_run.
  destruct (credentials w).
  2:{ simpl. repeat split; auto; intros; intuition discriminate. }
  destruct (normalize csv) as [df|e] eqn:E.
  2:{ simpl. repeat split; auto; intros; intuition discriminate. }
  rewrite <- (normalize_columns _ _ E) in N.
  destruct (getitems_absent df pk_cols c I N) as [k G].
  rewrite (validate_missing_key _ _ _ G). simpl.
  repeat split; auto; intros; intuition discriminate.
Qed.

Lemma convert_col_succeeds f c d :
  (forall x, get_col d c = Some x -> exists x', f x = Ok x') ->
  exists d', convert_col f c d = Ok d'.
Proof.
  intros H. unfold convert_col, getitem.
  destruct (has_col d c) eqn:C; [|eauto].
  apply has_col_get in C. destruct C as [x G]. rewrite G.
  destruct (H x G) as [x' ->]. eauto.
Qed.

Lemma convert_cols_succeeds f cols :
  NoDup cols ->
  forall d,
    (forall c x, In c cols -> get_col d c = Some x -> exists x', f x = Ok x') ->
    exists d', convert_cols f cols d = Ok d'.
Proof.
  induction 1 as [|c0 cols N ND IH]; simpl; intros d H; [eauto|].
  destruct (convert_col_succeeds f c0 d (fun x => H c0 x (or_introl eq_refl)))
    as [d1 E].
  rewrite E. apply IH.
  intros c x I G. apply (H c x (or_intror I)).
  rewrite <- G. symmetry. eapply convert_col_other; [|exact E].
  intros ->. contradiction.
Qed.

Lemma get_col_In_pair d c x : get_col d c = Some x -> In (c, x) d.
Proof.
  induction d as [|[c' x'] d IH]; simpl; [discriminate|].
  destruct (String.eqb_spec c' c) as [->|N].
  - intros [= ->]. now left.
  - intros H. right. auto.
Qed.

Lemma lower_columns_pairs d c x :
  In (c, x) (lower_columns d) -> exists c0, In (c0, x) d.
Proof.
  unfold lower_columns. intros I. apply in_map_iff in I.
  destruct I as [[c0 x0] [E I]]. simpl in E.
  exists c0. congruence.
Qed.

Lemma normalize_untouched df df' c :
  normalize df = Ok df' ->
  c <> "game_date" -> ~ In c numeric_cols -> ~ In c int_cols ->
  get_col df' c = get_col (lower_columns df) c.
Proof.
  intros H N1 N2 N3.
  destruct (normalize_stages _ _ H) as [d1 [d2 [E1 [E2 E3]]]].
  rewrite (convert_cols_other _ _ _ _ _ N3 E3),
    (convert_cols_other _ _ _ _ _ N2 E2).
  eapply convert_col_other; [|exact E1]. congruence.
Qed.

Lemma normalize_len df df' : normalize df = Ok df' -> len df' = len df.
Proof.
  intros H. destruct (normalize_stages _ _ H) as [d1 [d2 [E1 [E2 E3]]]].
  rewrite (convert_cols_len _ _ astype_Int64_length _ _ E3),
    (convert_cols_len _ _ to_numeric_coerce_length _ _ E2),
    (convert_col_len _ _ _ _ to_datetime_length E1).
  apply len_lower_columns.
Qed.

(** A file that holds a header and no row is prepared without an error. *)
Lemma normalize_header_only csv :
  (forall c x, In (c, x) csv -> x = SObject []) ->
  exists df, normalize csv = Ok df.
Proof.
  intros H. unfold normalize, prepare_dates, coerce_numeric, cast_integers.
  assert (H0 : forall c x, get_col (lower_columns csv) c = Some x -> x = SObject []).
  { intros c x G. apply get_col_In_pair in G.
    apply lower_columns_pairs in G. destruct G as [c0 G]. eauto. }
  destruct (convert_col_succeeds to_datetime "game_date" (lower_columns csv))
    as [d1 E1].
  { intros x G. rewrite (H0 _ _ G). eexists. reflexivity. }
  rewrite E1.
  destruct (convert_cols_total (to_numeric errors_coerce) numeric_cols
              to_numeric_coerce_total d1) as [d2 E2].
  rewrite E2.
  apply (convert_cols_succeeds _ _ int_cols_NoDup).
  intros c x I G.
  assert (N : ~ In c numeric_cols) by (intros J; exact (numeric_not_int c J I)).
  rewrite (convert_cols_other _ _ _ _ _ N E2) in G.
  assert (D : "game_date" <> c) by (intros <-; exact (game_date_not_int I)).
  rewrite (convert_col_other _ _ _ _ _ D E1) in G.
  rewrite (H0 _ _ G). eexists. reflexivity.
Qed.

Lemma len_header_only csv :
  (forall c x, In (c, x) csv -> x = SObject []) -> len csv = 0.
Proof.
  destruct csv as [|[c x] csv]; [reflexivity|].
  intros H. simpl. rewrite (H c x (or_introl eq_refl)). reflexivity.
Qed.

Lemma rows_of_empty df : len df = 0 -> rows_of df = [].
Proof.
  unfold rows_of. intros ->. reflexivity.
Qed.

(** X22: a file that holds the header line and no row (every column comes
    out of [read_csv] as an object column without values), whose
    lower-cased labels are distinct and include the three key columns and
    the description, goes through every step: the three checks pass, the
    longest description is NaN, nothing is written and the run reports zero
    rows loaded. *)
Theorem header_only_file_loads_nothing (w : World) (csv : DataFrame) :
  credentials w = true ->
  latest_csv w = Some (Some csv) ->
  engine_ok w = true ->
  db_reachable w = true ->
  db_fault w = false ->
  (forall c x, In (c, x) csv -> x = SObject []) ->
  NoDup (map lower (columns csv)) ->
  (forall c, In c pk_cols -> In c (map lower (columns csv))) ->
  In "description" (map lower (columns csv)) ->
  run w =
    (Ok tt,
     {| stdout := [MStarting; MFoundFile; MReadingCsv; MReadRows 0;
                   MValidating; MCheck1Passed; MCheck2Passed;
                   MCheck3Passed None; MConnecting; MConnected; MLoading;
                   MLoaded 0; MEngineClosed; MFinished];
        db := table w;
        engine := disposed_engine |}).
Proof.
  intros Hc Hf He Hr Hd Hx _ Hpk Hdesc.
  destruct (normalize_header_only csv Hx) as [df Hn].
  pose proof (len_header_only csv Hx) as L0.
  assert (L : len df = 0) by (rewrite (normalize_len _ _ Hn); exact L0).
  pose proof (rows_of_empty df L) as R.
  rewrite <- (normalize_columns _ _ Hn) in Hpk, Hdesc.
  destruct (getitems_present df pk_cols Hpk) as [pk G].
  assert (Gd : get_col df "description" = Some (SObject [])).
  { rewrite (normalize_untouched csv df "description" Hn).
    - destruct (get_col (lower_columns csv) "description") as [x|] eqn:Gx.
      + f_equal. apply get_col_In_pair in Gx.
        apply lower_columns_pairs in Gx. destruct Gx as [c0 Gx]. eauto.
      + apply get_col_None in Gx.
        rewrite columns_lower, <- (normalize_columns _ _ Hn) in Gx.
        contradiction.
    - discriminate.
    - apply mem_false. reflexivity.
    - apply mem_false. reflexivity. }
  assert (N0 : null_pk_count df = 0) by (unfold null_pk_count; now rewrite R).
  assert (D0 : duplicate_count df = 0) by (unfold duplicate_count; now rewrite L).
  rewrite run_unfold, Hc, Hf, read_and_validate_run, Hn.
  rewrite (validate_run _ _ _ G), N0, D0, Gd, L0.
  cbv beta iota delta [Nat.ltb Nat.leb].
  rewrite connect_run by reflexivity. rewrite He, Hr.
  erewrite load_run by reflexivity. rewrite Hd.
  cbv beta iota delta [db say start]. rewrite R, L. reflexivity.
Qed.

(** ** Descriptions longer than the column *)

Lemma exec_insert_too_long rows r :
  In r rows -> description_too_long r = true ->
  forall t, exists e, exec_insert t rows = Raise e.
Proof.
  induction rows as [|r0 rows IH]; simpl; [contradiction|].
  intros [->|I] L t; unfold insert_row.
  - rewrite L. eauto.
  - destruct (description_too_long r0); [eauto|].
    destruct (pk_has_null r0); [eauto|].
    destruct (pk_in t r0); [eauto|]. auto.
Qed.

Lemma overlong_description_row df v x :
  get_col df "description" = Some (SObject v) ->
  List.length v = len df ->
  In (Some x) v ->
  db_desc_limit < String.length x ->
  exists r, In r (rows_of df) /\ description_too_long r = true.
Proof.
  intros G L I X. destruct (In_nth _ _ None I) as [i [Hi E]].
  exists (row_at df i). split.
  - unfold rows_of. apply in_map. apply in_seq. lia.
  - unfold description_too_long. rewrite field_row_at, G. simpl.
    unfold cell_at. simpl.
    change CNull with (opt_cell CStr None). rewrite map_nth, E. simpl.
    now apply Nat.ltb_lt.
Qed.

(** X23: the description check only warns, and the load then fails. When
    the description column of the prepared frame is a text column, as long
    as the frame, holding a value longer than the 100 characters of the
    table column, no run stores a row of the file or reports rows as
    loaded. *)
Theorem overlong_description_is_never_stored
    (w : World) (csv df : DataFrame) (v : list (option string)) (x : string) :
  latest_csv w = Some (Some csv) ->
  normalize csv = Ok df ->
  get_col df "description" = Some (SObject v) ->
  List.length v = len df ->
  In (Some x) v ->
  db_desc_limit < String.length x ->
  db (snd (run w)) = table w
  /\ forall n, ~ In (MLoaded n) (stdout (snd (run w))).
Proof.
  intros Hf Hn G L I X.
  destruct (overlong_description_row df v x G L I X) as [r [Ir Lr]].
  destruct (run_cases w) as [l0 [Hl H]].
  assert (NI : forall n, ~ In (MLoaded n) l0)
    by (intros n; apply (msg_not_before_step3 l0 (MLoaded n) Hl eq_refl)).
  destruct H as [H|[H|[H|[csv' [df' [Hf' [Hn' [_ H]]]]]]]];
    specialize (H (table w)); rewrite with_table_same in H; rewrite H;
    try (split; [reflexivity|]; intros n; specialize (NI n); simpl;
         rewrite ?in_app_iff; simpl; intuition discriminate).
  assert (csv' = csv) by congruence. subst csv'.
  assert (df' = df) by congruence. subst df'.
  rewrite finish_load_run.
  destruct (exec_insert_too_long _ r Ir Lr (table w)) as [e ->].
  destruct (db_fault w); [|destruct (is_IntegrityError e)];
    (split; [reflexivity|]); intros n; specialize (NI n); simpl;
    rewrite in_app_iff; simpl; intuition discriminate.
Qed.

End Properties.

(** * The properties on concrete frames and runs *)

Import Sample.

Ltac distinct_labels :=
  repeat (constructor; [simpl; intuition discriminate|]); constructor.

(** C4, as stated, fails on a frame without the game_pk column: its row has
    a null at-bat number, and the validator raises at [df[pk_cols]] without
    reporting a count. *)
Lemma null_key_without_game_pk :
  (exists r, In r (rows_of no_game_pk) /\ null_in_pk r = true)
  /\ null_pk_count no_game_pk = 1
  /\ validate no_game_pk fresh =
       (Raise (KeyError "game_pk"), say fresh [MValidating])
  /\ forall n,
       ~ In (MNullPkError n) (stdout (snd (validate no_game_pk fresh))).
Proof.
  split; [apply null_row_check; reflexivity|].
  repeat split; try reflexivity.
  intros n. simpl. intuition discriminate.
Qed.

(** C4, amended, on a frame of two rows, one with a null game_pk. *)
Lemma null_pk_rejected_with_count_witness :
  validate null_key fresh =
    (Raise (SystemExit 1),
     say fresh [MValidating; MNullPkError 1; MNullPkSample; MNullPkExit]).
Proof.
  apply (null_pk_rejected_with_count null_key fresh).
  - distinct_labels.
  - apply has_pk_cols_check. reflexivity.
  - apply null_row_check. reflexivity.
Defined.



(** C5, as stated, fails on a frame without a description column and on a
    frame without one of the key columns: their keys are neither null nor
    duplicated, and the validator raises instead of passing them. *)
Lemma clean_keys_without_description_raise :
  null_pk_count keys_only = 0
  /\ duplicate_count keys_only = 0
  /\ validate keys_only fresh =
       (Raise (KeyError "description"),
        say fresh [MValidating; MCheck1Passed; MCheck2Passed])
  /\ null_pk_count no_pitch_number = 0
  /\ duplicate_count no_pitch_number = 0
  /\ validate no_pitch_number fresh =
       (Raise (KeyError "pitch_number"), say fresh [MValidating]).
Proof.
  repeat split; reflexivity.
Qed.

(** C5, amended, on a frame with a description of 101 characters. *)
Lemma clean_keys_pass_witness :
  validate long_description fresh =
    (Ok tt,
     say fresh [MValidating; MCheck1Passed; MCheck2Passed;
                MDescriptionWarning (Some 101)]).
Proof.
  apply (clean_keys_pass long_description
           (SObject [Some "x"; Some (letters 101)]) fresh).
  - distinct_labels.
  - apply has_pk_cols_check. reflexivity.
  - reflexivity.
  - apply no_null_row_check. reflexivity.
  - apply distinct_keys_check. reflexivity.
Defined.





(** C6, as stated, fails on a column of whole numbers: it comes out of the
    coercion as int64, not as a floating-point column. *)
Lemma whole_numbers_stay_integers :
  coerce_numeric whole_speeds = Ok [("release_speed", SInt64 [90; 95]%Z)]
  /\ dtype (SInt64 [90; 95]%Z) <> float64.
Proof.
  repeat split; try reflexivity. discriminate.
Qed.

(** C6, amended, on a column with a field that is no number. *)
Lemma numeric_columns_coerced_witness :
  exists df' s',
    coerce_numeric two_pitches = Ok df'
    /\ columns df' = columns two_pitches
    /\ get_col df' "release_speed" = Some s'
    /\ to_numeric errors_coerce speeds = Ok s'
    /\ (dtype s' = float64 \/ dtype s' = int64 \/ dtype s' = Int64)
    /\ series_len s' = series_len speeds
    /\ (dtype speeds = int64 \/ dtype speeds = float64 \/ dtype speeds = Int64 ->
        s' = speeds)
    /\ (forall v, speeds = SObject v ->
          (dtype s' = int64 <->
           forall o, In o v ->
                     exists x z, o = Some x /\ parse_number x = Some (inl z))
          /\ forall i, i < List.length v ->
               cell_at s' i =
                 match nth i v None with
                 | None => CNull
                 | Some x =>
                     match parse_number x with
                     | None => CNull
                     | Some (inl z) =>
                         match dtype s' with
                         | int64 => CInt z
                         | _ => CFloat (float_of_int z)
                         end
                     | Some (inr f) => CFloat f
                     end
                 end)
    /\ forall i x,
         cell_at speeds i = CStr x -> parse_number x = None ->
         cell_at s' i = CNull /\ dtype s' = float64.
Proof.
  apply (numeric_columns_coerced two_pitches "release_speed" speeds).
  - distinct_labels.
  - left. reflexivity.
  - reflexivity.
Defined.



(** C9, as stated, fails in the load script. A source without the
    description column, which is in the schema, gives a snapshot that the
    fetch script writes with status 0 and that the load script refuses with
    status 1, storing nothing; and a file with a column outside the schema
    is stored with that column. *)
Lemma load_script_selects_no_column :
  In "description" COLUMNS_TO_KEEP
  /\ fetch_status (fetch keys_source) = 0%Z
  /\ snapshot (fetch keys_source) = Some keys_file
  /\ fst (run (world keys_file [])) = Raise (SystemExit 1)
  /\ db (snd (run (world keys_file []))) = []
  /\ ~ In "spin_dir" COLUMNS_TO_KEEP
  /\ map (map fst) (db (snd (run (world extra_column_file [])))) =
       [["game_pk"; "at_bat_number"; "pitch_number"; "description"; "spin_dir"]].
Proof.
  split; [apply mem_In; reflexivity|].
  repeat split; try reflexivity.
  apply mem_false. reflexivity.
Qed.

(** C9, amended, on a source with four columns of the schema and one
    outside it. *)
Lemma loaded_columns_are_schema_intersection_witness :
  fetch_status (fetch batter_source) = 0%Z
  /\ (forall c, In c (columns batter_file) <->
                In c COLUMNS_TO_KEEP /\ In c (columns statcast_answer))
  /\ (forall cs, In (warning_missing_columns cs) (logged (fetch batter_source)) <->
                 cs = filter (fun c => negb (has_col statcast_answer c))
                        COLUMNS_TO_KEEP
                 /\ cs <> [])
  /\ (forall r, In r (db (snd (run (world batter_file [])))) -> ~ In r [] ->
                forall c, In c (map fst r) <->
                          In c COLUMNS_TO_KEEP /\ In c (columns statcast_answer)).
Proof.
  apply (loaded_columns_are_schema_intersection batter_source 660271 []
           statcast_answer (world batter_file []) batter_file);
    reflexivity.
Defined.

(** C10 on a file that holds the key columns alone. *)
Lemma missing_description_stops_run_witness :
  fst (run (world keys_file [])) = Raise (SystemExit 1)
  /\ db (snd (run (world keys_file []))) = []
  /\ engine (snd (run (world keys_file []))) = None
  /\ ~ In MLoading (stdout (snd (run (world keys_file []))))
  /\ (In MCheck2Passed (stdout (snd (run (world keys_file [])))) ->
      In (MProcessingError (KeyError "description"))
        (stdout (snd (run (world keys_file []))))).
Proof.
  apply (missing_description_stops_run (world keys_file []) keys_file).
  - reflexivity.
  - apply mem_false. reflexivity.
Defined.

(** X1 on a directory with a text file, an older snapshot in upper case and
    the snapshot of the default player. *)
Lemma find_latest_csv_newest_candidate_witness :
  exists entries e t,
    Listed raw_directory = Listed entries
    /\ @nil FinderMsg = []
    /\ In e entries
    /\ "data/raw/shohei_ohtani_batter_statcast_2023-01-01_to_2023-12-31.csv" =
         path_join "data/raw" (entry_name e)
    /\ endswith (lower (entry_name e)) ".csv" = true
    /\ ("" = "" \/ startswith (lower (entry_name e)) (lower "") = true)
    /\ entry_mtime e = Mtime t
    /\ forall e', In e' entries ->
         is_candidate "" (entry_name e') = true ->
         exists t', entry_mtime e' = Mtime t' /\ (t' <= t)%Z.
Proof.
  apply (find_latest_csv_newest_candidate "data/raw" (Listed raw_directory) ""
           []
           "data/raw/shohei_ohtani_batter_statcast_2023-01-01_to_2023-12-31.csv").
  reflexivity.
Defined.

(** X3 on the same directory, with no variable of the fetch script set. *)
Lemma snapshot_is_found_witness :
  find_latest_csv "data/raw" (Listed raw_directory) "" =
    ([], Some (path_join "data/raw" (OUTPUT_FILENAME defaults))).
Proof.
  apply (snapshot_is_found "data/raw" raw_directory defaults 200).
  - right. right. left. reflexivity.
  - intros e [<-|[<-|[<-|[]]]] C.
    + discriminate C.
    + exists 100%Z. split; [reflexivity|]. left. reflexivity.
    + exists 200%Z. split; [reflexivity|]. right. reflexivity.
Defined.

(** X4 on a frame with a description of 101 characters. *)
Lemma validate_passes_iff_witness :
  fst (validate long_description fresh) = Ok tt <->
  (forall c, In c pk_cols -> In c (columns long_description))
  /\ In "description" (columns long_description)
  /\ (forall r, In r (rows_of long_description) -> null_in_pk r = false)
  /\ (forall i j, i < len long_description -> j < len long_description ->
                  i <> j ->
                  pk_of (row_at long_description i) <>
                  pk_of (row_at long_description j)).
Proof.
  apply (validate_passes_iff long_description fresh).
  distinct_labels.
Defined.


(** X8 on the same file when the table holds its first pitch. *)
Lemma integrity_error_means_stored_key_witness :
  exists csv df r,
    latest_csv (world two_pitches [stored_pitch]) = Some (Some csv)
    /\ normalize csv = Ok df
    /\ In r (rows_of df)
    /\ pk_in (table (world two_pitches [stored_pitch])) r = true.
Proof.
  apply (integrity_error_means_stored_key (world two_pitches [stored_pitch])).
  apply (nth_error_In _ 11). reflexivity.
Defined.

(** X9 on the same file and an empty table. *)
Lemma clean_batch_is_stored_witness :
  fst (run (world two_pitches [])) = Ok tt
  /\ db (snd (run (world two_pitches []))) =
       table (world two_pitches []) ++ rows_of two_pitches_prepared
  /\ engine (snd (run (world two_pitches []))) = disposed_engine
  /\ In (MLoaded (len two_pitches_prepared))
       (stdout (snd (run (world two_pitches [])))).
Proof.
  apply (clean_batch_is_stored (world two_pitches []) two_pitches
           two_pitches_prepared); try reflexivity.
  - distinct_labels.
  - intros r [<-|[<-|[]]]; split; reflexivity.
Defined.

(** X10 on a table that holds one pitch. *)
Lemma run_keeps_keys_unique_witness :
  keys_unique (db (snd (run (world two_pitches [stored_pitch])))).
Proof.
  apply (run_keeps_keys_unique (world two_pitches [stored_pitch])).
  split.
  - constructor; [intros []|constructor].
  - intros r [<-|[]]. reflexivity.
Defined.

(** X11 on the file of two pitches. *)
Lemma normalize_keeps_shape_witness :
  columns two_pitches_prepared = map lower (columns two_pitches)
  /\ len two_pitches_prepared = len two_pitches
  /\ forall c, c <> "game_date" -> ~ In c numeric_cols -> ~ In c int_cols ->
               get_col two_pitches_prepared c =
               get_col (lower_columns two_pitches) c.
Proof.
  apply (normalize_keeps_shape two_pitches two_pitches_prepared).
  reflexivity.
Defined.

(** X12 on the same file. *)
Lemma normalize_idempotent_witness :
  normalize two_pitches_prepared = Ok two_pitches_prepared.
Proof.
  apply (normalize_idempotent two_pitches two_pitches_prepared).
  reflexivity.
Defined.

(** X13 on a float column that holds a player id and a missing value. *)
Lemma integer_columns_keep_nulls_witness :
  exists x',
    get_col runners_cast "on_1b" = Some x'
    /\ dtype x' = Int64
    /\ series_len x' = series_len on_first
    /\ forall i,
         is_null (cell_at x' i) = is_null (cell_at on_first i)
         /\ forall z, cell_at on_first i = CInt z -> cell_at x' i = CInt z.
Proof.
  apply (integer_columns_keep_nulls runners runners_cast "on_1b" on_first).
  - apply mem_In. reflexivity.
  - reflexivity.
  - reflexivity.
Defined.

(** X14 on a pitch whose count of balls is one half. *)
Lemma non_integral_value_stops_run_witness :
  (exists e, normalize half_ball = Raise e)
  /\ fst (run (world half_ball [])) = Raise (SystemExit 1)
  /\ db (snd (run (world half_ball []))) = table (world half_ball [])
  /\ engine (snd (run (world half_ball []))) = None.
Proof.
  apply (non_integral_value_stops_run (world half_ball []) half_ball "balls"
           [Some (QArith_base.Qmake 1 2)] (QArith_base.Qmake 1 2)).
  - reflexivity.
  - apply mem_In. reflexivity.
  - reflexivity.
  - left. reflexivity.
  - reflexivity.
Defined.

(** X17 on the answer for one batter. *)
Lemma cleaned_columns_follow_the_schema_order_witness :
  columns (snd (clean_and_select_columns statcast_answer COLUMNS_TO_KEEP)) =
    filter (fun c => has_col statcast_answer c) COLUMNS_TO_KEEP.
Proof.
  apply (cleaned_columns_follow_the_schema_order statcast_answer
           COLUMNS_TO_KEEP).
  repeat (constructor; [simpl; intuition discriminate|]).
  constructor.
Defined.

(** X19 with the chunk size of the script and a chunk size of one row. *)
Lemma chunk_size_is_not_observable_witness :
  insert_chunks 1000 [stored_pitch] [second_pitch] =
    insert_chunks 1 [stored_pitch] [second_pitch]
  /\ forall t', insert_chunks 1000 [stored_pitch] [second_pitch] = Ok t' ->
                t' = [stored_pitch] ++ [second_pitch].
Proof.
  apply (chunk_size_is_not_observable 1000 1 [stored_pitch] [second_pitch]);
    lia.
Defined.

(** X21 on a file without the pitch number. *)
Lemma missing_key_column_stops_run_witness :
  fst (run (world no_pitch_number [])) = Raise (SystemExit 1)
  /\ db (snd (run (world no_pitch_number []))) =
       table (world no_pitch_number [])
  /\ engine (snd (run (world no_pitch_number []))) = None
  /\ ~ In MCheck1Passed (stdout (snd (run (world no_pitch_number []))))
  /\ forall n,
       ~ In (MNullPkError n) (stdout (snd (run (world no_pitch_number [])))).
Proof.
  apply (missing_key_column_stops_run (world no_pitch_number [])
           no_pitch_number "pitch_number").
  - reflexivity.
  - apply mem_In. reflexivity.
  - apply mem_false. reflexivity.
Defined.

(** X22 on a header of four columns, over a table that holds one pitch. *)
Lemma header_only_file_loads_nothing_witness :
  run (world header_only [stored_pitch]) =
    (Ok tt,
     {| stdout := [MStarting; MFoundFile; MReadingCsv; MReadRows 0;
                   MValidating; MCheck1Passed; MCheck2Passed;
                   MCheck3Passed None; MConnecting; MConnected; MLoading;
                   MLoaded 0; MEngineClosed; MFinished];
        db := table (world header_only [stored_pitch]);
        engine := disposed_engine |}).
Proof.
  apply (header_only_file_loads_nothing (world header_only [stored_pitch])
           header_only); try reflexivity.
  - intros c x [H|[H|[H|[H|[]]]]]; congruence.
  - distinct_labels.
  - intros c [<-|[<-|[<-|[]]]]; apply mem_In; reflexivity.
  - apply mem_In. reflexivity.
Defined.

(** X23 on two pitches, the second with a description of 101 characters. *)
Lemma overlong_description_is_never_stored_witness :
  db (snd (run (world long_description_file []))) =
    table (world long_description_file [])
  /\ forall n,
       ~ In (MLoaded n) (stdout (snd (run (world long_description_file [])))).
Proof.
  apply (overlong_description_is_never_stored (world long_description_file [])
           long_description_file long_description
           [Some "x"; Some (letters 101)] (letters 101)).
  - reflexivity.
  - reflexivity.
  - reflexivity.
  - reflexivity.
  - right. left. reflexivity.
  - apply Nat.ltb_lt. reflexivity.
Defined.
